(** * mapbox-globe-viewer: the filter / bounds / clustering / selection glue

    A shallow embedding of the application's own logic:
      - [utils/visitorFilters]   (matches*, filterVisitors, getUniqueValues)
      - [utils/conversionScore]  (getConversionScoreColor and its background variant)
      - [hooks/useClustering]    (the arguments handed to the clustering library)
      - [App.jsx]                (bounds, handleMarkerClick, handleClusterClick,
                                  closePopup, resetView, handleMapClick)

    Modelling conventions.
      - A JavaScript string is a [string] of 8-bit code units, that is, of
        the characters up to U+00FF; on those [toLowerCase] works character
        by character (A-Z and the accented capitals U+00C0-U+00DE other than
        the multiplication sign move up by 32).  Text beyond U+00FF, where
        lower-casing can depend on the neighbours of a letter, is outside
        the model.  [===] on strings is [String.eqb], the default
        [Array.prototype.sort] order is the code-unit order [String.leb].
      - A finite JavaScript number is a rational [Q]; [NaN] is a separate
        constructor of [number].  Infinities are not modelled.
      - An optional property is an [option]: [None] is a missing (undefined)
        property, and [?.] is a match on it.
      - A call into the map library or the clustering library either returns
        or throws: [outcome].  [try]/[catch] is [tryCatch]. *)

From Stdlib Require Import List Bool Arith ZArith QArith Qround Qminmax Lia Lqa.
From Stdlib Require Import Ascii String.
From Stdlib Require Import Sorted Permutation.
Import ListNotations.

Set Implicit Arguments.

Local Open Scope string_scope.

(* ------------------------------------------------------------------ *)
(** * JavaScript values used by the code *)

(** ** Numbers *)

Inductive number : Type :=
| Num (q : Q)
| NaN.

(** [a >= b] on numbers: false as soon as one side is [NaN]. *)
Definition geb (a b : number) : bool :=
  match a, b with
  | Num x, Num y => Qle_bool y x
  | _, _ => false
  end.

(** Truthiness of a number: [0] and [NaN] are falsy. *)
Definition truthyNumber (n : number) : bool :=
  match n with
  | Num q => negb (Qeq_bool q 0)
  | NaN => false
  end.

(** [Math.floor]. *)
Definition Math_floor (n : number) : number :=
  match n with
  | Num q => Num (inject_Z (Qfloor q))
  | NaN => NaN
  end.

(** [Math.min] of two numbers. *)
Definition Math_min (a b : number) : number :=
  match a, b with
  | Num x, Num y => Num (Qmin x y)
  | _, _ => NaN
  end.

(** [a + b] on numbers. *)
Definition plus (a b : number) : number :=
  match a, b with
  | Num x, Num y => Num (x + y)
  | _, _ => NaN
  end.

(** ** Strings *)

Definition lowerCodeUnit (c : ascii) : ascii :=
  let n := nat_of_ascii c in
  if ((65 <=? n)%nat && (n <=? 90)%nat)
     || ((192 <=? n)%nat && (n <=? 222)%nat && negb (n =? 215)%nat)
  then ascii_of_nat (n + 32)
  else c.

Fixpoint toLowerCase (s : string) : string :=
  match s with
  | EmptyString => EmptyString
  | String c rest => String (lowerCodeUnit c) (toLowerCase rest)
  end.

(** [s.includes(q)]: [q] occurs in [s] as a contiguous substring. *)
Fixpoint includes (s q : string) : bool :=
  if String.prefix q s then true
  else match s with
       | EmptyString => false
       | String _ rest => includes rest q
       end.

(** Truthiness of a string: only the empty string is falsy. *)
Definition truthyString (s : string) : bool :=
  match s with
  | EmptyString => false
  | String _ _ => true
  end.

(** ** Calls that may throw *)

Inductive outcome (A : Type) : Type :=
| Returns (a : A)
| Throws.

Arguments Throws {A}.

Definition bind {A B : Type} (m : outcome A) (k : A -> outcome B) : outcome B :=
  match m with
  | Returns a => k a
  | Throws => Throws
  end.

Notation "x <- m ;; k" := (bind m (fun x => k))
  (at level 61, m at next level, right associativity).

(** [try { body } catch (error) { return handler }]. *)
Definition tryCatch {A : Type} (body : outcome A) (handler : A) : outcome A :=
  match body with
  | Returns a => Returns a
  | Throws => Returns handler
  end.

(* ------------------------------------------------------------------ *)
(** * The visitor record (README, "Data Format") *)

Module Device.
Record t : Type := mk { type : option string }.
End Device.

Module Visitor.
Record t : Type := mk {
  visitorId : string;
  firstName : option string;
  lastName : option string;
  email : option string;
  latitude : Q;
  longitude : Q;
  city : option string;
  country : option string;
  countryCode : option string;
  isCustomer : option bool;
  device : option Device.t
}.
End Visitor.

(** The [filters] object of [App]: [{country, device, customer, countryCode}]. *)
Module Filters.
Record t : Type := mk {
  country : string;
  device : string;
  customer : string;
  countryCode : string
}.
End Filters.

(* ------------------------------------------------------------------ *)
(** * utils/visitorFilters *)

(** [field?.toLowerCase().includes(query)]; a missing field gives
    [undefined], which is falsy. *)
Definition fieldIncludes (field : option string) (query : string) : bool :=
  match field with
  | Some s => includes (toLowerCase s) query
  | None => false
  end.

(** [field?.toLowerCase() === filter.toLowerCase()]. *)
Definition fieldEquals (field : option string) (filter : string) : bool :=
  match field with
  | Some s => String.eqb (toLowerCase s) (toLowerCase filter)
  | None => false
  end.

Definition matchesSearchQuery (visitor : Visitor.t) (searchQuery : string) : bool :=
  if negb (truthyString searchQuery) then true
  else
    let query := toLowerCase searchQuery in
    fieldIncludes (Visitor.firstName visitor) query
    || fieldIncludes (Visitor.lastName visitor) query
    || fieldIncludes (Visitor.email visitor) query
    || fieldIncludes (Visitor.city visitor) query
    || fieldIncludes (Visitor.country visitor) query.

Definition matchesCountryFilter (visitor : Visitor.t) (countryFilter : string) : bool :=
  if negb (truthyString countryFilter) then true
  else fieldEquals (Visitor.country visitor) countryFilter.

(** [visitor.device?.type]. *)
Definition deviceType (visitor : Visitor.t) : option string :=
  match Visitor.device visitor with
  | Some d => Device.type d
  | None => None
  end.

Definition matchesDeviceFilter (visitor : Visitor.t) (deviceFilter : string) : bool :=
  if negb (truthyString deviceFilter) then true
  else fieldEquals (deviceType visitor) deviceFilter.

(** [x === true] and [x === false] on an optional boolean property. *)
Definition strictEqBool (x : option bool) (b : bool) : bool :=
  match x with
  | Some y => Bool.eqb y b
  | None => false
  end.

Definition matchesCustomerFilter (visitor : Visitor.t) (customerFilter : string) : bool :=
  if String.eqb customerFilter "" then true
  else if String.eqb customerFilter "customer"
       then strictEqBool (Visitor.isCustomer visitor) true
  else if String.eqb customerFilter "visitor"
       then strictEqBool (Visitor.isCustomer visitor) false
  else true.

Definition matchesCountryCodeFilter (visitor : Visitor.t) (countryCodeFilter : string) : bool :=
  if negb (truthyString countryCodeFilter) then true
  else fieldEquals (Visitor.countryCode visitor) countryCodeFilter.

(** The callback of [visitors.filter(...)] in [filterVisitors]. *)
Definition passes (searchQuery : string) (filters : Filters.t) (visitor : Visitor.t) : bool :=
  matchesSearchQuery visitor searchQuery
  && matchesCountryFilter visitor (Filters.country filters)
  && matchesDeviceFilter visitor (Filters.device filters)
  && matchesCustomerFilter visitor (Filters.customer filters)
  && matchesCountryCodeFilter visitor (Filters.countryCode filters).

Definition filterVisitors (visitors : list Visitor.t) (searchQuery : string)
  (filters : Filters.t) : list Visitor.t :=
  filter (passes searchQuery filters) visitors.

(** ** getUniqueValues *)

(** The accessors [getUniqueValues] is documented for produce strings
    ([@returns {Array<string>}]): a property name of a string-valued
    property, or a function from a visitor to a possibly missing string. *)
Inductive stringProperty : Type :=
| P_visitorId | P_firstName | P_lastName | P_email
| P_city | P_country | P_countryCode.

Inductive fieldAccessor : Type :=
| PropertyName (name : stringProperty)
| AccessorFunction (f : Visitor.t -> option string).

(** [visitor[fieldAccessor]]. *)
Definition property (name : stringProperty) (visitor : Visitor.t) : option string :=
  match name with
  | P_visitorId => Some (Visitor.visitorId visitor)
  | P_firstName => Visitor.firstName visitor
  | P_lastName => Visitor.lastName visitor
  | P_email => Visitor.email visitor
  | P_city => Visitor.city visitor
  | P_country => Visitor.country visitor
  | P_countryCode => Visitor.countryCode visitor
  end.

Definition getValue (fieldAccessor0 : fieldAccessor) : Visitor.t -> option string :=
  match fieldAccessor0 with
  | AccessorFunction f => f
  | PropertyName name => property name
  end.

(** [.filter(Boolean)] on possibly missing strings: drops [undefined] and
    the empty string. *)
Fixpoint filterBoolean (values : list (option string)) : list string :=
  match values with
  | [] => []
  | Some s :: rest =>
      if truthyString s then s :: filterBoolean rest else filterBoolean rest
  | None :: rest => filterBoolean rest
  end.

(** [self.indexOf(value)], counting from [i] at the head of [self];
    [-1] when [value] does not occur. *)
Fixpoint indexOfFrom (i : Z) (self : list string) (value : string) : Z :=
  match self with
  | [] => (-1)%Z
  | x :: rest =>
      if String.eqb x value then i else indexOfFrom (i + 1)%Z rest value
  end.

Definition indexOf (self : list string) (value : string) : Z :=
  indexOfFrom 0%Z self value.

(** [l.filter((value, index, self) => p(value, index))], where [l] starts
    at position [index] of the array being filtered. *)
Fixpoint filterIndexed (p : string -> Z -> bool) (index : Z) (l : list string)
  : list string :=
  match l with
  | [] => []
  | value :: rest =>
      if p value index
      then value :: filterIndexed p (index + 1)%Z rest
      else filterIndexed p (index + 1)%Z rest
  end.

(** [.filter((value, index, self) => self.indexOf(value) === index)]. *)
Definition firstOccurrences (self : list string) : list string :=
  filterIndexed (fun value index => Z.eqb (indexOf self value) index) 0%Z self.

(** [values.sort()] with the default comparison: ascending code-unit order.
    The result of a sort is determined by the order alone when it is total
    and antisymmetric on the elements; insertion is one stable way to
    compute it. *)
Fixpoint insert (x : string) (l : list string) : list string :=
  match l with
  | [] => [x]
  | y :: rest => if String.leb x y then x :: l else y :: insert x rest
  end.

Fixpoint sort (l : list string) : list string :=
  match l with
  | [] => []
  | x :: rest => insert x (sort rest)
  end.

Definition getUniqueValues (visitors : list Visitor.t) (fieldAccessor0 : fieldAccessor)
  : list string :=
  let values := firstOccurrences (filterBoolean (map (getValue fieldAccessor0) visitors)) in
  sort values.

(* ------------------------------------------------------------------ *)
(** * constants *)

Module DEFAULT_VIEW_STATE.
Definition longitude : Q := 0.
Definition latitude : Q := 20.
Definition zoom : Q := 2.5.
End DEFAULT_VIEW_STATE.

Definition MARKER_SELECTED_ZOOM : Q := 3.

Module CONVERSION_SCORE.
Definition HIGH_THRESHOLD : Q := 80.
Definition MEDIUM_THRESHOLD : Q := 50.
Definition HIGH_COLOR : string := "#34C759".
Definition MEDIUM_COLOR : string := "#FFD60A".
Definition LOW_COLOR : string := "#FF453A".
Definition OPACITY : string := "1F".
End CONVERSION_SCORE.

Module CLUSTER_CONFIG.
Definition RADIUS : Q := 60.
Definition MAX_ZOOM : Q := 14.
Definition MIN_ZOOM : Q := 2.
End CLUSTER_CONFIG.

Definition CLUSTER_MAX_EXPANSION_ZOOM : Q := 18.

(* ------------------------------------------------------------------ *)
(** * utils/conversionScore *)

Definition getConversionScoreColor (score : number) : string :=
  if geb score (Num CONVERSION_SCORE.HIGH_THRESHOLD) then CONVERSION_SCORE.HIGH_COLOR
  else if geb score (Num CONVERSION_SCORE.MEDIUM_THRESHOLD) then CONVERSION_SCORE.MEDIUM_COLOR
  else CONVERSION_SCORE.LOW_COLOR.

Definition getConversionScoreBackgroundColor (score : number) : string :=
  let color := getConversionScoreColor score in
  color ++ CONVERSION_SCORE.OPACITY.

(* ------------------------------------------------------------------ *)
(** * hooks/useClustering *)

(** A GeoJSON point feature built from a visitor. *)
Module Feature.
Record t : Type := mk {
  cluster : bool;
  visitorId : string;
  visitor : Visitor.t;
  coordinates : Q * Q
}.
End Feature.

(** The object handed to the clustering library's hook [useSupercluster];
    [bounds = None] is [undefined]: no bounds constraint. *)
Module SuperclusterInput.
Record t : Type := mk {
  points : list Feature.t;
  bounds : option (list Q);
  zoom : number;
  radius : Q;
  maxZoom : Q
}.
End SuperclusterInput.

Definition toPoint (visitor : Visitor.t) : Feature.t :=
  {| Feature.cluster := false;
     Feature.visitorId := Visitor.visitorId visitor;
     Feature.visitor := visitor;
     Feature.coordinates := (Visitor.longitude visitor, Visitor.latitude visitor) |}.

(** [zoom || fallback], where a missing [zoom] is [undefined]. *)
Definition zoomOr (zoom : option number) (fallback : number) : number :=
  match zoom with
  | Some n => if truthyNumber n then n else fallback
  | None => fallback
  end.

(** [bounds || undefined]: an array is truthy, [null] is not. *)
Definition boundsOrUndefined (bounds : option (list Q)) : option (list Q) :=
  match bounds with
  | Some b => Some b
  | None => None
  end.

Definition superclusterInput (visitors : list Visitor.t) (bounds : option (list Q))
  (zoom : option number) : SuperclusterInput.t :=
  let points := map toPoint visitors in
  {| SuperclusterInput.points := points;
     SuperclusterInput.bounds := boundsOrUndefined bounds;
     SuperclusterInput.zoom := zoomOr zoom (Num CLUSTER_CONFIG.MIN_ZOOM);
     SuperclusterInput.radius := CLUSTER_CONFIG.RADIUS;
     SuperclusterInput.maxZoom := CLUSTER_CONFIG.MAX_ZOOM |}.

Section UseClustering.
(** The clustering library's hook and what it returns
    ([{clusters, supercluster}]) are external. *)
Variable Clustered : Type.
Variable useSupercluster : SuperclusterInput.t -> Clustered.

End UseClustering.

(* ------------------------------------------------------------------ *)
(** * App.jsx *)

(** ** The map library, as seen through [mapRef] *)

Module LngLat.
Record t : Type := mk { lng : Q; lat : Q }.
End LngLat.

Module LngLatBounds.
Record t : Type := mk {
  getNorthEast : outcome LngLat.t;
  getSouthWest : outcome LngLat.t
}.
End LngLatBounds.

(** [getBounds = None]: the map object has no such method.  A call may
    throw, or return [null] ([Returns None]). *)
Module MapInstance.
Record t : Type := mk {
  getBounds : option (outcome (option LngLatBounds.t))
}.
End MapInstance.

(** [mapRef.current] when it is not [null]. *)
Module MapRef.
Record t : Type := mk {
  getMap : option (outcome (option MapInstance.t))
}.
End MapRef.

(** [mapBounds.getNorthEast()] and the like on a possibly [null] receiver:
    a [null] receiver throws a TypeError. *)
Definition callOn {A B : Type} (receiver : option A) (method : A -> outcome B) : outcome B :=
  match receiver with
  | Some a => method a
  | None => Throws
  end.

(** ** bounds (the [useMemo] callback) *)

Definition boundsBody (getMap : outcome (option MapInstance.t)) : outcome (option (list Q)) :=
  map <- getMap ;;
  match map with
  | None => Returns None
  | Some m =>
      match MapInstance.getBounds m with
      | None => Returns None
      | Some getBounds =>
          mapBounds <- getBounds ;;
          ne <- callOn mapBounds LngLatBounds.getNorthEast ;;
          sw <- callOn mapBounds LngLatBounds.getSouthWest ;;
          Returns (Some [LngLat.lng sw; LngLat.lat sw; LngLat.lng ne; LngLat.lat ne])
      end
  end.

Definition bounds (current : option MapRef.t) : outcome (option (list Q)) :=
  match current with
  | None => Returns None
  | Some ref =>
      match MapRef.getMap ref with
      | None => Returns None
      | Some getMap => tryCatch (boundsBody getMap) None
      end
  end.

(** The [useClustering(filteredVisitors, bounds, Math.floor(viewState.zoom))]
    call of [App], up to the clustering library's hook. *)
Definition appSuperclusterInput (filteredVisitors : list Visitor.t)
  (bounds0 : option (list Q)) (viewStateZoom : number) : SuperclusterInput.t :=
  superclusterInput filteredVisitors bounds0 (Some (Math_floor viewStateZoom)).

(** ** Selection and camera commands *)

(** The argument of [mapRef.current.flyTo]. *)
Module FlyTo.
Record t : Type := mk {
  center : Q * Q;
  zoom : number;
  duration : Q;
  essential : bool
}.
End FlyTo.

(** [{ id: visitor.visitorId, ...visitor }]. *)
Module SelectedMarker.
Record t : Type := mk {
  id : string;
  visitor : Visitor.t
}.
End SelectedMarker.

(** [selectedMarker]: [null] or one object. *)
Definition selection : Type := option SelectedMarker.t.

(** [if (mapRef.current) mapRef.current.flyTo(options)]: the commands sent. *)
Definition flyToIfMounted (current : option MapRef.t) (options : FlyTo.t) : list FlyTo.t :=
  match current with
  | Some _ => [options]
  | None => []
  end.

Definition handleMarkerClick (current : option MapRef.t) (visitor : Visitor.t)
  : selection * list FlyTo.t :=
  (Some {| SelectedMarker.id := Visitor.visitorId visitor;
           SelectedMarker.visitor := visitor |},
   flyToIfMounted current
     {| FlyTo.center := (Visitor.longitude visitor, Visitor.latitude visitor);
        FlyTo.zoom := Num MARKER_SELECTED_ZOOM;
        FlyTo.duration := 1000;
      FlyTo.essential := true |}).

Definition closePopup : selection := None.

Definition resetView (current : option MapRef.t) : selection * list FlyTo.t :=
  (None,
   flyToIfMounted current
     {| FlyTo.center := (DEFAULT_VIEW_STATE.longitude, DEFAULT_VIEW_STATE.latitude);
        FlyTo.zoom := Num DEFAULT_VIEW_STATE.zoom;
        FlyTo.duration := 1500;
      FlyTo.essential := true |}).

Definition handleMapClick (selectedMarker : selection) : selection :=
  match selectedMarker with
  | Some _ => closePopup
  | None => selectedMarker
  end.

(** [isSelected={selectedMarker?.id === visitor.visitorId}]. *)
Definition isSelected (selectedMarker : selection) (visitor : Visitor.t) : bool :=
  match selectedMarker with
  | Some m => String.eqb (SelectedMarker.id m) (Visitor.visitorId visitor)
  | None => false
  end.

(** The user interactions that reach [selectedMarker]. *)
Inductive interaction : Type :=
| MarkerClick (visitor : Visitor.t)
| PopupClose
| ResetViewClick
| MapClick.

Definition step (current : option MapRef.t) (selectedMarker : selection)
  (i : interaction) : selection * list FlyTo.t :=
  match i with
  | MarkerClick visitor => handleMarkerClick current visitor
  | PopupClose => (closePopup, [])
  | ResetViewClick => resetView current
  | MapClick => (handleMapClick selectedMarker, [])
  end.

(** States reachable from the initial [useState(null)]; the map may mount
    or change between interactions. *)
Inductive reachable : selection -> Prop :=
| reachable_initial : reachable None
| reachable_step : forall current s i,
    reachable s -> reachable (fst (step current s i)).

(** ** handleClusterClick *)

Module Cluster.
Record t : Type := mk {
  id : Z;
  coordinates : Q * Q
}.
End Cluster.

(** The clustering library's index object. *)
Module Supercluster.
Record t : Type := mk {
  getClusterExpansionZoom : Z -> outcome number
}.
End Supercluster.

Definition handleClusterClick (supercluster : option Supercluster.t)
  (current : option MapRef.t) (cluster : Cluster.t) : outcome (list FlyTo.t) :=
  match supercluster, current with
  | Some sc, Some _ =>
      reported <- Supercluster.getClusterExpansionZoom sc (Cluster.id cluster) ;;
      let expansionZoom :=
        Math_min (plus reported (Num 1)) (Num CLUSTER_MAX_EXPANSION_ZOOM) in
      Returns [ {| FlyTo.center := Cluster.coordinates cluster;
                   FlyTo.zoom := expansionZoom;
                   FlyTo.duration := 500;
                 FlyTo.essential := true |} ]
  | _, _ => Returns []
  end.

(* ------------------------------------------------------------------ *)
(** * Vocabulary of the properties *)

(** [a >= b] as a proposition; nothing is [>=] or [<=] [NaN]. *)
Definition number_ge (a b : number) : Prop :=
  match a, b with
  | Num x, Num y => (y <= x)%Q
  | _, _ => False
  end.

(** Ascending code-unit order on strings, the order of the default sort. *)
Definition le_string (a b : string) : Prop := String.leb a b = true.

(** The criteria a user can set: the search text and the four filters. *)
Inductive criterion : Type :=
| SearchText | Country | DeviceType | CustomerType | CountryCode.

Definition criterionValue (c : criterion) (searchQuery : string) (filters : Filters.t)
  : string :=
  match c with
  | SearchText => searchQuery
  | Country => Filters.country filters
  | DeviceType => Filters.device filters
  | CustomerType => Filters.customer filters
  | CountryCode => Filters.countryCode filters
  end.

(** Clearing one criterion, as [onClearSearch] and
    [handleFilterChange(key, "")] do. *)
Definition clearCriterion (c : criterion) (searchQuery : string) (filters : Filters.t)
  : string * Filters.t :=
  match c with
  | SearchText => ("", filters)
  | Country =>
      (searchQuery,
       Filters.mk "" (Filters.device filters) (Filters.customer filters)
                  (Filters.countryCode filters))
  | DeviceType =>
      (searchQuery,
       Filters.mk (Filters.country filters) "" (Filters.customer filters)
                  (Filters.countryCode filters))
  | CustomerType =>
      (searchQuery,
       Filters.mk (Filters.country filters) (Filters.device filters) ""
                  (Filters.countryCode filters))
  | CountryCode =>
      (searchQuery,
       Filters.mk (Filters.country filters) (Filters.device filters)
                  (Filters.customer filters) "")
  end.

(** The filters of [clearFilters]. *)
Definition noFilters : Filters.t := Filters.mk "" "" "" "".

(** A [[west, south, east, north]] array that is a proper rectangle. *)
Definition validRectangle (r : list Q) : Prop :=
  match r with
  | [west; south; east; north] => (west <= east)%Q /\ (south <= north)%Q
  | _ => False
  end.

(** The map library reports the corners [sw] and [ne] through [mapRef]. *)
Inductive reportsCorners : option MapRef.t -> LngLat.t -> LngLat.t -> Prop :=
| reports_corners : forall ref m mb sw ne,
    MapRef.getMap ref = Some (Returns (Some m)) ->
    MapInstance.getBounds m = Some (Returns (Some mb)) ->
    LngLatBounds.getNorthEast mb = Returns ne ->
    LngLatBounds.getSouthWest mb = Returns sw ->
    reportsCorners (Some ref) sw ne.

(** The camera is not available yet, or the bounds query fails. *)
Inductive unavailable : option MapRef.t -> Prop :=
| not_mounted : unavailable None
| no_getMap : forall ref,
    MapRef.getMap ref = None -> unavailable (Some ref)
| getMap_throws : forall ref,
    MapRef.getMap ref = Some Throws -> unavailable (Some ref)
| no_map : forall ref,
    MapRef.getMap ref = Some (Returns None) -> unavailable (Some ref)
| no_getBounds : forall ref m,
    MapRef.getMap ref = Some (Returns (Some m)) ->
    MapInstance.getBounds m = None -> unavailable (Some ref)
| getBounds_throws : forall ref m,
    MapRef.getMap ref = Some (Returns (Some m)) ->
    MapInstance.getBounds m = Some Throws -> unavailable (Some ref)
| getBounds_null : forall ref m,
    MapRef.getMap ref = Some (Returns (Some m)) ->
    MapInstance.getBounds m = Some (Returns None) -> unavailable (Some ref)
| getNorthEast_throws : forall ref m mb,
    MapRef.getMap ref = Some (Returns (Some m)) ->
    MapInstance.getBounds m = Some (Returns (Some mb)) ->
    LngLatBounds.getNorthEast mb = Throws -> unavailable (Some ref)
| getSouthWest_throws : forall ref m mb,
    MapRef.getMap ref = Some (Returns (Some m)) ->
    MapInstance.getBounds m = Some (Returns (Some mb)) ->
    LngLatBounds.getSouthWest mb = Throws -> unavailable (Some ref).

(** ** Sample data *)

(** The record of the README's "Data Format" section. *)
Definition john : Visitor.t :=
  {| Visitor.visitorId := "unique-id";
     Visitor.firstName := Some "John";
     Visitor.lastName := Some "Doe";
     Visitor.email := Some "john@example.com";
     Visitor.latitude := 40.7128;
     Visitor.longitude := -74.0060;
     Visitor.city := Some "New York";
     Visitor.country := Some "United States";
     Visitor.countryCode := Some "US";
     Visitor.isCustomer := Some true;
     Visitor.device := Some (Device.mk (Some "desktop")) |}.

(** A record that leaves the optional properties out. *)
Definition marie : Visitor.t :=
  {| Visitor.visitorId := "v-2";
     Visitor.firstName := Some "Marie";
     Visitor.lastName := None;
     Visitor.email := None;
     Visitor.latitude := 48.8566;
     Visitor.longitude := 2.3522;
     Visitor.city := Some "Paris";
     Visitor.country := Some "France";
     Visitor.countryCode := Some "FR";
     Visitor.isCustomer := None;
     Visitor.device := None |}.

(** A mounted map whose viewport spans the antimeridian and whose corners
    are reported with wrapped longitudes. *)
Definition wrappedCorners : LngLatBounds.t :=
  {| LngLatBounds.getNorthEast := Returns (LngLat.mk (-170) 10);
     LngLatBounds.getSouthWest := Returns (LngLat.mk 170 (-10)) |}.

Definition wrappedMap : MapRef.t :=
  {| MapRef.getMap :=
       Some (Returns (Some {| MapInstance.getBounds :=
                                Some (Returns (Some wrappedCorners)) |})) |}.

(** A mounted map over Europe. *)
Definition europeMap : MapRef.t :=
  {| MapRef.getMap :=
       Some (Returns (Some {| MapInstance.getBounds :=
         Some (Returns (Some
           {| LngLatBounds.getNorthEast := Returns (LngLat.mk 30 60);
              LngLatBounds.getSouthWest := Returns (LngLat.mk (-10) 35) |})) |})) |}.

(** A clustering index that knows cluster 7 only. *)
Definition sampleIndex : Supercluster.t :=
  {| Supercluster.getClusterExpansionZoom :=
       fun id => if Z.eqb id 7 then Returns (Num 5) else Throws |}.

(* ------------------------------------------------------------------ *)
(** * hooks/useVisitorFilters *)

(** [!!(searchQuery || filters.country || filters.device ||
        filters.customer || filters.countryCode)]. *)
Definition hasActiveFilters (searchQuery : string) (filters : Filters.t) : bool :=
  truthyString searchQuery
  || truthyString (Filters.country filters)
  || truthyString (Filters.device filters)
  || truthyString (Filters.customer filters)
  || truthyString (Filters.countryCode filters).

Module VisitorFilters.
Record t : Type := mk {
  filteredVisitors : list Visitor.t;
  uniqueCountries : list string;
  uniqueDevices : list string;
  uniqueCountryCodes : list string;
  hasActiveFilters : bool
}.
End VisitorFilters.

Definition useVisitorFilters (visitors : list Visitor.t) (searchQuery : string)
  (filters : Filters.t) : VisitorFilters.t :=
  {| VisitorFilters.filteredVisitors := filterVisitors visitors searchQuery filters;
     VisitorFilters.uniqueCountries := getUniqueValues visitors (PropertyName P_country);
     VisitorFilters.uniqueDevices := getUniqueValues visitors (AccessorFunction deviceType);
     VisitorFilters.uniqueCountryCodes :=
       getUniqueValues visitors (PropertyName P_countryCode);
     VisitorFilters.hasActiveFilters := hasActiveFilters searchQuery filters |}.

(* ------------------------------------------------------------------ *)
(** * App.jsx: the search text and the filters *)

(** The keys [FilterPanel] passes to [onFilterChange]. *)
Inductive filterKey : Type :=
| Key_country | Key_device | Key_customer | Key_countryCode.

(** [filters[key]]. *)
Definition filterValue (key : filterKey) (filters : Filters.t) : string :=
  match key with
  | Key_country => Filters.country filters
  | Key_device => Filters.device filters
  | Key_customer => Filters.customer filters
  | Key_countryCode => Filters.countryCode filters
  end.

(** [setFilters((prev) => ({ ...prev, [key]: value }))]. *)
Definition handleFilterChange (key : filterKey) (value : string) (prev : Filters.t)
  : Filters.t :=
  match key with
  | Key_country =>
      Filters.mk value (Filters.device prev) (Filters.customer prev)
                 (Filters.countryCode prev)
  | Key_device =>
      Filters.mk (Filters.country prev) value (Filters.customer prev)
                 (Filters.countryCode prev)
  | Key_customer =>
      Filters.mk (Filters.country prev) (Filters.device prev) value
                 (Filters.countryCode prev)
  | Key_countryCode =>
      Filters.mk (Filters.country prev) (Filters.device prev)
                 (Filters.customer prev) value
  end.

(** [clearFilters]: the new search text and the new filters. *)
Definition clearFilters : string * Filters.t :=
  ("", Filters.mk "" "" "" "").

(** What the search bar and the filter panel can do to
    [(searchQuery, filters)]. *)
Inductive criteriaEvent : Type :=
| SearchChange (value : string)
| ClearSearch
| FilterChange (key : filterKey) (value : string)
| ClearFilters.

Definition criteriaStep (state : string * Filters.t) (e : criteriaEvent)
  : string * Filters.t :=
  match e with
  | SearchChange value => (value, snd state)
  | ClearSearch => ("", snd state)
  | FilterChange key value => (fst state, handleFilterChange key value (snd state))
  | ClearFilters => clearFilters
  end.

(* ------------------------------------------------------------------ *)
(** * App.jsx: the rendered markers *)

(** An item of [clusters]: [properties.cluster] is true for a cluster made
    by the clustering library, false for a point feature handed back. *)
Inductive clusterItem : Type :=
| ClusterItem (cluster : Cluster.t) (point_count : number)
| LeafItem (visitor : Visitor.t).

Inductive element : Type :=
| ClusterMarkerElement (cluster : Cluster.t) (pointCount : number)
| MarkerElement (visitor : Visitor.t) (selected : bool).

(** The callback of [clusters.map(...)] in the JSX of [App]. *)
Definition renderItem (selectedMarker : selection) (item : clusterItem) : element :=
  match item with
  | ClusterItem cluster point_count => ClusterMarkerElement cluster point_count
  | LeafItem visitor => MarkerElement visitor (isSelected selectedMarker visitor)
  end.

Definition renderClusters (selectedMarker : selection) (clusters : list clusterItem)
  : list element :=
  map (renderItem selectedMarker) clusters.

(** What identifies a rendered child: the cluster id behind the key
    [`cluster-${cluster.id}`], or the key [visitor.visitorId]. *)
Definition itemKey (item : clusterItem) : Z + string :=
  match item with
  | ClusterItem cluster _ => inl (Cluster.id cluster)
  | LeafItem visitor => inr (Visitor.visitorId visitor)
  end.

(** A sequence of interactions, each with the [mapRef.current] of its
    moment: the final selection and all camera commands sent, in order. *)
Fixpoint run (selectedMarker : selection)
  (trace : list (option MapRef.t * interaction)) : selection * list FlyTo.t :=
  match trace with
  | [] => (selectedMarker, [])
  | (current, i) :: rest =>
      let (next, sent) := step current selectedMarker i in
      let (final, sentLater) := run next rest in
      (final, (sent ++ sentLater)%list)
  end.

(* ------------------------------------------------------------------ *)
(** * components/ClusterMarker *)

(** [a < b] on numbers: false as soon as one side is [NaN]. *)
Definition ltb (a b : number) : bool :=
  match a, b with
  | Num x, Num y => negb (Qle_bool y x)
  | _, _ => false
  end.

Definition getClusterSize (count : number) : Q :=
  if ltb count (Num 10) then 40
  else if ltb count (Num 100) then 50
  else 60.

(* ------------------------------------------------------------------ *)
(** * components/Marker and components/Popup *)

(** White space and line terminators among the 8-bit code units:
    TAB, LF, VT, FF, CR, SP and NBSP. *)
Definition isWhiteSpace (c : ascii) : bool :=
  let n := nat_of_ascii c in
  ((9 <=? n)%nat && (n <=? 13)%nat) || (n =? 32)%nat || (n =? 160)%nat.

Fixpoint trimStart (s : string) : string :=
  match s with
  | EmptyString => EmptyString
  | String c rest => if isWhiteSpace c then trimStart rest else s
  end.

Fixpoint trimEnd (s : string) : string :=
  match s with
  | EmptyString => EmptyString
  | String c rest =>
      match trimEnd rest with
      | EmptyString => if isWhiteSpace c then EmptyString else String c EmptyString
      | kept => String c kept
      end
  end.

(** [s.trim()]. *)
Definition trim (s : string) : string := trimEnd (trimStart s).

(** [field || fallback] on a possibly missing string. *)
Definition stringOr (field : option string) (fallback : string) : string :=
  match field with
  | Some s => if truthyString s then s else fallback
  | None => fallback
  end.

(** [`${visitor.firstName || ""} ${visitor.lastName || ""}`.trim()]. *)
Definition fullName (visitor : Visitor.t) : string :=
  trim (stringOr (Visitor.firstName visitor) ""
        ++ " " ++ stringOr (Visitor.lastName visitor) "").

(** [aria-label={fullName || "Visitor"}] of [Marker]. *)
Definition markerLabel (visitor : Visitor.t) : string :=
  stringOr (Some (fullName visitor)) "Visitor".

(** [<h3>{fullName || "Unknown"}</h3>] of [Popup]. *)
Definition popupHeading (visitor : Visitor.t) : string :=
  stringOr (Some (fullName visitor)) "Unknown".

(** The conversion score row of [Popup], from
    [visitor.conversionLikelihood?.score] ([None] is [undefined]):
    [scoreColor] and [scoreBgColor] are [null] for a falsy score, and the
    row is rendered unless the score is [undefined]. *)
Module ScoreRow.
Record t : Type := mk {
  score : number;
  color : option string;
  backgroundColor : option string
}.
End ScoreRow.

Definition scoreColor (conversionScore : option number) : option string :=
  match conversionScore with
  | Some n => if truthyNumber n then Some (getConversionScoreColor n) else None
  | None => None
  end.

Definition scoreBgColor (conversionScore : option number) : option string :=
  match conversionScore with
  | Some n =>
      if truthyNumber n then Some (getConversionScoreBackgroundColor n) else None
  | None => None
  end.

Definition popupScoreRow (conversionScore : option number) : option ScoreRow.t :=
  match conversionScore with
  | Some n =>
      Some {| ScoreRow.score := n;
              ScoreRow.color := scoreColor conversionScore;
              ScoreRow.backgroundColor := scoreBgColor conversionScore |}
  | None => None
  end.

(* ------------------------------------------------------------------ *)
(** * hooks/useMapConfig *)

Module MAP_STYLES.
Definition OUTDOORS : string := "mapbox://styles/mapbox/outdoors-v12".
Definition SATELLITE : string := "mapbox://styles/mapbox/satellite-streets-v12".
Definition LIGHT : string := "mapbox://styles/mapbox/light-v11".
Definition DARK : string := "mapbox://styles/mapbox/dark-v11".
End MAP_STYLES.

Module MAP_STYLE_TYPES.
Definition OUTDOORS : string := "outdoors".
Definition SATELLITE : string := "satellite".
Definition LIGHT : string := "light".
Definition DARK : string := "dark".
End MAP_STYLE_TYPES.

(** An object literal with string values, as its own properties in order. *)
Definition FOG_COLORS : list (string * string) :=
  [ ("outdoors", "#2d5016"); ("satellite", "#87CEEB");
    ("light", "#5d689c"); ("dark", "#242B4B") ].

(** The value of [object[key]]: the string of an own property, a value
    inherited from [Object.prototype] (a function or an object, never a
    string), or [undefined]. *)
Inductive propertyValue : Type :=
| StringValue (s : string)
| InheritedValue
| UndefinedValue.

Fixpoint ownProperty (object : list (string * string)) (key : string) : option string :=
  match object with
  | [] => None
  | (k, v) :: rest => if String.eqb k key then Some v else ownProperty rest key
  end.

(** [value || fallback]: an inherited function or object is truthy. *)
Definition valueOr (value fallback : propertyValue) : propertyValue :=
  match value with
  | StringValue s => if truthyString s then value else fallback
  | InheritedValue => value
  | UndefinedValue => fallback
  end.

Section UseMapConfig.
(** The property names every object inherits from [Object.prototype]
    ([constructor], [toString], ...). *)
Variable inherited : string -> bool.

Definition getProperty (object : list (string * string)) (key : string)
  : propertyValue :=
  match ownProperty object key with
  | Some v => StringValue v
  | None => if inherited key then InheritedValue else UndefinedValue
  end.

Definition getMapStyleUrl (mapStyle : string) : propertyValue :=
  let styleMap :=
    [ (MAP_STYLE_TYPES.OUTDOORS, MAP_STYLES.OUTDOORS);
      (MAP_STYLE_TYPES.SATELLITE, MAP_STYLES.SATELLITE);
      (MAP_STYLE_TYPES.LIGHT, MAP_STYLES.LIGHT);
      (MAP_STYLE_TYPES.DARK, MAP_STYLES.DARK) ] in
  valueOr (getProperty styleMap mapStyle) (StringValue MAP_STYLES.OUTDOORS).

Definition getFogColor (mapStyle : string) : propertyValue :=
  valueOr (getProperty FOG_COLORS mapStyle) (getProperty FOG_COLORS "outdoors").
End UseMapConfig.

(* ------------------------------------------------------------------ *)
(** * App.jsx: the memoised bounds *)

(** The part of [viewState] the code reads. *)
Module ViewState.
Record t : Type := mk {
  longitude : number;
  latitude : number;
  zoom : number
}.
End ViewState.


(** What [useMemo] keeps between renders: the dependencies
    [[viewState.longitude, viewState.latitude, viewState.zoom]] of the last
    computation and its value. *)
Module BoundsMemo.
Record t : Type := mk {
  deps : ViewState.t;
  value : option (list Q)
}.
End BoundsMemo.






(** The camera commands of the selection handlers. *)
Definition moveToRecord (visitor : Visitor.t) : FlyTo.t :=
  {| FlyTo.center := (Visitor.longitude visitor, Visitor.latitude visitor);
     FlyTo.zoom := Num 3;
     FlyTo.duration := 1000;
     FlyTo.essential := true |}.

Definition moveToDefaultView : FlyTo.t :=
  {| FlyTo.center := (0, 20);
     FlyTo.zoom := Num 2.5;
     FlyTo.duration := 1500;
     FlyTo.essential := true |}.

(** The command one interaction is expected to send. *)
Definition expectedCommands (entry : option MapRef.t * interaction) : list FlyTo.t :=
  match entry with
  | (Some _, MarkerClick visitor) => [moveToRecord visitor]
  | (Some _, ResetViewClick) => [moveToDefaultView]
  | _ => []
  end.

(** A text of ASCII characters only. *)
Fixpoint isAscii (s : string) : bool :=
  match s with
  | EmptyString => true
  | String c rest => (nat_of_ascii c <? 128)%nat && isAscii rest
  end.

(* ------------------------------------------------------------------ *)
(** * Properties of the record filter *)

Lemma strictEqBool_false (x : option bool) :
  strictEqBool x false = true <-> x = Some false.
Proof.
  destruct x as [[|]|]; simpl; split; intro H; congruence.
Qed.

Lemma matchesCustomerFilter_visitor (v : Visitor.t) :
  matchesCustomerFilter v "visitor" = true <-> Visitor.isCustomer v = Some false.
Proof.
  unfold matchesCustomerFilter; simpl. apply strictEqBool_false.
Qed.

Lemma matchesSearchQuery_empty (v : Visitor.t) : matchesSearchQuery v "" = true.
Proof. reflexivity. Qed.

Lemma matchesCountryFilter_empty (v : Visitor.t) : matchesCountryFilter v "" = true.
Proof. reflexivity. Qed.

Lemma matchesDeviceFilter_empty (v : Visitor.t) : matchesDeviceFilter v "" = true.
Proof. reflexivity. Qed.

Lemma matchesCustomerFilter_empty (v : Visitor.t) : matchesCustomerFilter v "" = true.
Proof. reflexivity. Qed.

Lemma matchesCustomerFilter_any (v : Visitor.t) : matchesCustomerFilter v "any" = true.
Proof. reflexivity. Qed.

Lemma matchesCountryCodeFilter_empty (v : Visitor.t) :
  matchesCountryCodeFilter v "" = true.
Proof. reflexivity. Qed.

Lemma passes_split (q : string) (f : Filters.t) (v : Visitor.t) :
  passes q f v = true <->
  matchesSearchQuery v q = true
  /\ matchesCountryFilter v (Filters.country f) = true
  /\ matchesDeviceFilter v (Filters.device f) = true
  /\ matchesCustomerFilter v (Filters.customer f) = true
  /\ matchesCountryCodeFilter v (Filters.countryCode f) = true.
Proof.
  unfold passes. rewrite !andb_true_iff. tauto.
Qed.

Lemma filter_all (A : Type) (p : A -> bool) (l : list A) :
  (forall x, p x = true) -> filter p l = l.
Proof.
  intro Hall. induction l as [|x l IH]; simpl.
  - reflexivity.
  - rewrite Hall, IH. reflexivity.
Qed.

(** The search is case-insensitive and looks inside the five text fields. *)
Example matchesSearchQuery_city : matchesSearchQuery john "YORK" = true.
Proof. reflexivity. Qed.

Example matchesSearchQuery_missing_fields : matchesSearchQuery marie "doe" = false.
Proof. reflexivity. Qed.

(** The customer filter keeps the customer and drops the other record. *)
Example filterVisitors_customer :
  filterVisitors [john; marie] "" (Filters.mk "" "" "customer" "") = [john].
Proof. reflexivity. Qed.

Example filterVisitors_country_device :
  filterVisitors [john; marie] "" (Filters.mk "united states" "Desktop" "" "us") = [john].
Proof. reflexivity. Qed.

(** Setting the customer filter to ["any"] relaxes it just as clearing it does. *)
Lemma passes_customer_any (v : Visitor.t) (q : string) (f : Filters.t) :
  passes q f v = true ->
  passes q (Filters.mk (Filters.country f) (Filters.device f) "any"
                       (Filters.countryCode f)) v = true.
Proof.
  rewrite !passes_split. simpl. intuition.
Qed.

(** C1 (as the code has it): under the customer filter ["visitor"], a record
    whose [isCustomer] property is absent is rejected, whatever its other
    properties are: [undefined === false] is false.  Only records whose
    [isCustomer] is exactly [false] pass. *)
Theorem matchesCustomerFilter_visitor_rejects_absent :
  forall id first last mail la lo cty ctry code dev,
    matchesCustomerFilter
      (Visitor.mk id first last mail la lo cty ctry code None dev) "visitor" = false.
Proof.
  intros. reflexivity.
Qed.

(** C4: if a record passes the filter predicate under some criteria, it
    still passes after any one non-empty criterion (search text, country,
    device, customer type or country code) has been cleared. *)
Theorem passes_after_clearing (v : Visitor.t) (q : string) (f : Filters.t)
  (c : criterion) :
  truthyString (criterionValue c q f) = true ->
  passes q f v = true ->
  passes (fst (clearCriterion c q f)) (snd (clearCriterion c q f)) v = true.
Proof.
  intros _ Hpass.
  apply passes_split in Hpass.
  destruct Hpass as (Hq & Hcountry & Hdevice & Hcustomer & Hcode).
  apply passes_split.
  destruct c; simpl;
    repeat split;
    auto using matchesSearchQuery_empty, matchesCountryFilter_empty,
      matchesDeviceFilter_empty, matchesCustomerFilter_empty,
      matchesCountryCodeFilter_empty.
Qed.

Lemma passes_after_clearing_witness :
  truthyString (criterionValue CustomerType "john" (Filters.mk "" "" "customer" "US")) = true
  /\ passes "john" (Filters.mk "" "" "customer" "US") john = true
  /\ passes "john" (Filters.mk "" "" "" "US") john = true.
Proof.
  split; [reflexivity|]. split; [reflexivity|].
  apply (@passes_after_clearing john "john" (Filters.mk "" "" "customer" "US") CustomerType);
    reflexivity.
Defined.

(** C5: with the empty search text and every filter empty (the customer
    filter empty, or the value ["any"]), [filterVisitors] returns its input
    list unchanged: same records, same order. *)
Theorem filterVisitors_no_criteria (visitors : list Visitor.t) :
  filterVisitors visitors "" noFilters = visitors
  /\ filterVisitors visitors "" (Filters.mk "" "" "any" "") = visitors.
Proof.
  unfold filterVisitors. split; apply filter_all; intro v; reflexivity.
Qed.

(* ------------------------------------------------------------------ *)
(** * Properties of the conversion score colours *)

Lemma geb_number_ge (a b : number) : geb a b = true <-> number_ge a b.
Proof.
  destruct a as [x|], b as [y|]; simpl;
    try (split; [discriminate | tauto]).
  apply Qle_bool_iff.
Qed.

Lemma geb_false_iff (a b : number) : geb a b = false <-> ~ number_ge a b.
Proof.
  rewrite <- geb_number_ge. destruct (geb a b); split; congruence.
Qed.

Lemma number_ge_thresholds (score : number) :
  number_ge score (Num CONVERSION_SCORE.HIGH_THRESHOLD) ->
  number_ge score (Num CONVERSION_SCORE.MEDIUM_THRESHOLD).
Proof.
  destruct score as [q|]; simpl; [|tauto].
  unfold CONVERSION_SCORE.HIGH_THRESHOLD, CONVERSION_SCORE.MEDIUM_THRESHOLD.
  intro H. lra.
Qed.

(** C10: the colour of a score is the high colour exactly when
    [score >= 80], the medium colour exactly when [50 <= score < 80], and
    the low colour exactly in the remaining cases (below 50, zero, negative,
    NaN); the background colour is that colour followed by ["1F"]. *)
Theorem getConversionScoreColor_partition (score : number) :
  (getConversionScoreColor score = CONVERSION_SCORE.HIGH_COLOR
     <-> number_ge score (Num 80))
  /\ (getConversionScoreColor score = CONVERSION_SCORE.MEDIUM_COLOR
     <-> number_ge score (Num 50) /\ ~ number_ge score (Num 80))
  /\ (getConversionScoreColor score = CONVERSION_SCORE.LOW_COLOR
     <-> ~ number_ge score (Num 50))
  /\ getConversionScoreBackgroundColor score
     = getConversionScoreColor score ++ "1F".
Proof.
  pose proof (number_ge_thresholds score) as Hmono.
  unfold CONVERSION_SCORE.HIGH_THRESHOLD, CONVERSION_SCORE.MEDIUM_THRESHOLD in Hmono.
  unfold getConversionScoreBackgroundColor, getConversionScoreColor.
  unfold CONVERSION_SCORE.HIGH_THRESHOLD, CONVERSION_SCORE.MEDIUM_THRESHOLD.
  destruct (geb score (Num 80)) eqn:Hhigh.
  - apply geb_number_ge in Hhigh.
    repeat split; try discriminate; try tauto.
  - apply geb_false_iff in Hhigh.
    destruct (geb score (Num 50)) eqn:Hmedium.
    + apply geb_number_ge in Hmedium.
      repeat split; try discriminate; try tauto.
    + apply geb_false_iff in Hmedium.
      repeat split; try discriminate; try tauto.
Qed.

(* ------------------------------------------------------------------ *)
(** * Properties of the clustering input *)

Lemma truthyNumber_Num (q : Q) : ~ (q == 0)%Q -> truthyNumber (Num q) = true.
Proof.
  intro Hq. simpl. destruct (Qeq_bool q 0) eqn:E; [|reflexivity].
  apply Qeq_bool_iff in E. contradiction.
Qed.

(** C2, counterexample: with the camera at zoom 1.5, [App] hands
    [Math.floor(1.5) = 1] to [useClustering], and the zoom passed on to the
    clustering library is 1, below [MIN_ZOOM = 2]. *)
Lemma zoom_below_minimum_not_clamped :
  SuperclusterInput.zoom (appSuperclusterInput [] None (Num 1.5)) = Num 1
  /\ ~ number_ge (SuperclusterInput.zoom (appSuperclusterInput [] None (Num 1.5)))
         (Num CLUSTER_CONFIG.MIN_ZOOM).
Proof.
  split; [reflexivity|].
  intro H. vm_compute in H. apply H. reflexivity.
Qed.

(** C2 (amended): the zoom passed to the clustering library is
    [zoom || MIN_ZOOM]: an absent zoom, NaN and 0 all give [MIN_ZOOM = 2];
    any other supplied zoom is passed unchanged, so that the value passed is
    at least [MIN_ZOOM] exactly when the supplied zoom is. *)
Theorem useClustering_zoom_default (visitors : list Visitor.t)
  (bounds0 : option (list Q)) (q : Q) :
  SuperclusterInput.zoom (superclusterInput visitors bounds0 None)
    = Num CLUSTER_CONFIG.MIN_ZOOM
  /\ SuperclusterInput.zoom (superclusterInput visitors bounds0 (Some NaN))
     = Num CLUSTER_CONFIG.MIN_ZOOM
  /\ ((q == 0)%Q ->
      SuperclusterInput.zoom (superclusterInput visitors bounds0 (Some (Num q)))
      = Num CLUSTER_CONFIG.MIN_ZOOM)
  /\ (~ (q == 0)%Q ->
      SuperclusterInput.zoom (superclusterInput visitors bounds0 (Some (Num q))) = Num q
      /\ (number_ge
            (SuperclusterInput.zoom (superclusterInput visitors bounds0 (Some (Num q))))
            (Num CLUSTER_CONFIG.MIN_ZOOM)
          <-> (2 <= q)%Q)).
Proof.
  unfold superclusterInput, zoomOr; cbn [SuperclusterInput.zoom].
  split; [reflexivity|]. split; [reflexivity|]. split.
  - intro Hq. apply Qeq_bool_iff in Hq. simpl. rewrite Hq. reflexivity.
  - intro Hq. rewrite (truthyNumber_Num Hq).
    unfold CLUSTER_CONFIG.MIN_ZOOM; simpl. split; [reflexivity | tauto].
Qed.

Lemma useClustering_zoom_default_witness :
  (0 == 0)%Q /\ ~ (1 == 0)%Q
  /\ SuperclusterInput.zoom (superclusterInput [john] None (Some (Num 0))) = Num 2
  /\ SuperclusterInput.zoom (superclusterInput [john] None (Some (Num 1))) = Num 1.
Proof.
  assert (H0 : (0 == 0)%Q) by reflexivity.
  assert (H1 : ~ (1 == 0)%Q) by (intro E; discriminate E).
  split; [exact H0|]. split; [exact H1|]. split.
  - exact (proj1 (proj2 (proj2 (@useClustering_zoom_default [john] None 0))) H0).
  - exact (proj1 (proj2 (proj2 (proj2 (@useClustering_zoom_default [john] None 1))) H1)).
Defined.

(** C8: for a cluster id whose expansion zoom the clustering library
    reports as [e], the camera command of [handleClusterClick] has zoom
    [min (e + 1) 18]; that zoom is at most 18, and greater than [e] whenever
    [e < 18]. *)
Theorem handleClusterClick_zoom (sc : Supercluster.t) (ref : MapRef.t)
  (cluster : Cluster.t) (e : Q) :
  Supercluster.getClusterExpansionZoom sc (Cluster.id cluster) = Returns (Num e) ->
  exists z : Q,
    handleClusterClick (Some sc) (Some ref) cluster
      = Returns [ {| FlyTo.center := Cluster.coordinates cluster;
                     FlyTo.zoom := Num z;
                     FlyTo.duration := 500;
                     FlyTo.essential := true |} ]
    /\ z = Qmin (e + 1) 18
    /\ (z <= 18)%Q
    /\ ((e < 18)%Q -> (e < z)%Q).
Proof.
  intro Hknown. exists (Qmin (e + 1) 18).
  unfold handleClusterClick. rewrite Hknown. simpl.
  unfold CLUSTER_MAX_EXPANSION_ZOOM.
  split; [reflexivity|]. split; [reflexivity|].
  split.
  - apply Q.le_min_r.
  - intro He. apply Q.min_glb_lt; lra.
Qed.

Lemma handleClusterClick_zoom_witness :
  exists z : Q,
    handleClusterClick (Some sampleIndex) (Some europeMap) (Cluster.mk 7 (2.35, 48.85))
      = Returns [ {| FlyTo.center := (2.35, 48.85);
                     FlyTo.zoom := Num z;
                     FlyTo.duration := 500;
                     FlyTo.essential := true |} ]
    /\ z = Qmin (5 + 1) 18
    /\ (z <= 18)%Q
    /\ ((5 < 18)%Q -> (5 < z)%Q).
Proof.
  apply (@handleClusterClick_zoom sampleIndex europeMap (Cluster.mk 7 (2.35, 48.85)) 5).
  reflexivity.
Defined.

(* ------------------------------------------------------------------ *)
(** * Properties of the bounds deriver *)


(** What [bounds] returns, by cases on what the map library does. *)
Lemma bounds_cases (current : option MapRef.t) :
  (unavailable current /\ bounds current = Returns None)
  \/ (exists sw ne,
        reportsCorners current sw ne
        /\ bounds current
           = Returns (Some [LngLat.lng sw; LngLat.lat sw; LngLat.lng ne; LngLat.lat ne])).
Proof.
  destruct current as [ref|]; [|left; split; [constructor | reflexivity]].
  unfold bounds.
  destruct (MapRef.getMap ref) as [[[m|]|]|] eqn:HgetMap;
    try (left; split; [eauto using unavailable | reflexivity]).
  unfold boundsBody; simpl.
  destruct (MapInstance.getBounds m) as [[[mb|]|]|] eqn:HgetBounds;
    try (left; split; [eauto using unavailable | reflexivity]).
  simpl.
  destruct (LngLatBounds.getNorthEast mb) as [ne|] eqn:Hne;
    [|left; split; [eauto using unavailable | reflexivity]].
  simpl.
  destruct (LngLatBounds.getSouthWest mb) as [sw|] eqn:Hsw;
    [|left; split; [eauto using unavailable | reflexivity]].
  right. exists sw, ne. split; [|reflexivity].
  econstructor; eassumption.
Qed.


(** C3, counterexample: when the map library reports the corners of a
    viewport across the antimeridian as south-west (170, -10) and north-east
    (-170, 10), [bounds] returns [[170, -10, -170, 10]], whose west exceeds
    its east. *)
Lemma bounds_copies_unordered_corners :
  bounds (Some wrappedMap) = Returns (Some [170; -10; -170; 10])
  /\ ~ validRectangle [170; -10; -170; 10].
Proof.
  split; [reflexivity|].
  simpl. intros [Hwest _]. vm_compute in Hwest. apply Hwest. reflexivity.
Qed.

(** C3 (amended): when [bounds] returns a rectangle, it is the array
    [[sw.lng, sw.lat, ne.lng, ne.lat]] of the corners the map library
    reported, unchanged; it satisfies west <= east and south <= north
    exactly when the reported corners do. *)
Theorem bounds_rectangle_from_corners (current : option MapRef.t) (r : list Q) :
  bounds current = Returns (Some r) ->
  exists sw ne,
    reportsCorners current sw ne
    /\ r = [LngLat.lng sw; LngLat.lat sw; LngLat.lng ne; LngLat.lat ne]
    /\ (validRectangle r
        <-> (LngLat.lng sw <= LngLat.lng ne)%Q /\ (LngLat.lat sw <= LngLat.lat ne)%Q).
Proof.
  intro Hr.
  destruct (bounds_cases current) as [[_ Hnone] | (sw & ne & Hrep & Hsome)].
  - congruence.
  - exists sw, ne. split; [exact Hrep|].
    assert (r = [LngLat.lng sw; LngLat.lat sw; LngLat.lng ne; LngLat.lat ne])
      as -> by congruence.
    split; [reflexivity|]. simpl. tauto.
Qed.

Lemma bounds_rectangle_from_corners_witness :
  bounds (Some europeMap) = Returns (Some [-10; 35; 30; 60])
  /\ exists sw ne,
       reportsCorners (Some europeMap) sw ne
       /\ [-10; 35; 30; 60] = [LngLat.lng sw; LngLat.lat sw; LngLat.lng ne; LngLat.lat ne]
       /\ (validRectangle [-10; 35; 30; 60]
           <-> (LngLat.lng sw <= LngLat.lng ne)%Q /\ (LngLat.lat sw <= LngLat.lat ne)%Q).
Proof.
  split; [reflexivity|].
  apply (@bounds_rectangle_from_corners (Some europeMap) [-10; 35; 30; 60]).
  reflexivity.
Defined.






(* ------------------------------------------------------------------ *)
(** * Properties of the selection *)

Lemma reachable_coherent (s : selection) :
  reachable s ->
  s = None
  \/ exists v, s = Some (SelectedMarker.mk (Visitor.visitorId v) v).
Proof.
  induction 1 as [|current s i Hs IH].
  - left; reflexivity.
  - destruct i as [v| | |]; simpl.
    + right. exists v. reflexivity.
    + left; reflexivity.
    + left; reflexivity.
    + destruct s; simpl; left; reflexivity.
Qed.

Lemma isSelected_same_id (s : selection) (v1 v2 : Visitor.t) :
  isSelected s v1 = true -> isSelected s v2 = true ->
  Visitor.visitorId v1 = Visitor.visitorId v2.
Proof.
  destruct s as [m|]; simpl; [|discriminate].
  intros H1 H2.
  apply String.eqb_eq in H1. apply String.eqb_eq in H2. congruence.
Qed.

(** C7: in every reachable state the selection is [null] or the one record
    last clicked, and all markers shown as selected carry the same id; after
    a click on marker A and then on marker B with a different id, the
    selection is B alone: B is shown as selected and A is not. *)
Theorem selection_at_most_one :
  (forall s, reachable s ->
     (s = None \/ exists v, s = Some (SelectedMarker.mk (Visitor.visitorId v) v))
     /\ forall v1 v2, isSelected s v1 = true -> isSelected s v2 = true ->
          Visitor.visitorId v1 = Visitor.visitorId v2)
  /\ (forall current1 current2 s A B,
        Visitor.visitorId A <> Visitor.visitorId B ->
        let s1 := fst (step current1 s (MarkerClick A)) in
        let s2 := fst (step current2 s1 (MarkerClick B)) in
        s2 = Some (SelectedMarker.mk (Visitor.visitorId B) B)
        /\ isSelected s2 B = true
        /\ isSelected s2 A = false).
Proof.
  split.
  - intros s Hs. split.
    + apply reachable_coherent; exact Hs.
    + intros v1 v2. apply isSelected_same_id.
  - intros current1 current2 s A B Hdiff. simpl.
    split; [reflexivity|]. split.
    + apply String.eqb_refl.
    + apply String.eqb_neq. congruence.
Qed.

Lemma selection_at_most_one_witness :
  Visitor.visitorId john <> Visitor.visitorId marie
  /\ reachable (fst (step (Some europeMap)
                       (fst (step None None (MarkerClick john))) (MarkerClick marie)))
  /\ fst (step (Some europeMap) (fst (step None None (MarkerClick john))) (MarkerClick marie))
     = Some (SelectedMarker.mk "v-2" marie)
  /\ isSelected (Some (SelectedMarker.mk "v-2" marie)) john = false.
Proof.
  assert (Hdiff : Visitor.visitorId john <> Visitor.visitorId marie) by discriminate.
  split; [exact Hdiff|].
  split; [do 2 apply reachable_step; apply reachable_initial|].
  pose proof (proj2 selection_at_most_one None (Some europeMap) None john marie Hdiff)
    as (Hsel & _ & Hnot).
  split; [exact Hsel | exact Hnot].
Defined.

(* ------------------------------------------------------------------ *)
(** * Properties of getUniqueValues *)

(** ** The code-unit order on strings *)

Lemma compare_not_Gt_trans (a b c : string) :
  String.compare a b <> Gt -> String.compare b c <> Gt -> String.compare a c <> Gt.
Proof.
  revert b c.
  induction a as [|x a IH]; intros [|y b] [|z c]; simpl; try congruence.
  unfold Ascii.compare.
  destruct (N.compare_spec (N_of_ascii x) (N_of_ascii y)) as [Exy|Lxy|Gxy];
    destruct (N.compare_spec (N_of_ascii y) (N_of_ascii z)) as [Eyz|Lyz|Gyz];
    try congruence; intros Hab Hbc.
  - rewrite Exy, Eyz, N.compare_refl. eauto.
  - rewrite Exy. apply N.compare_lt_iff in Lyz. rewrite Lyz. discriminate.
  - rewrite <- Eyz. apply N.compare_lt_iff in Lxy. rewrite Lxy. discriminate.
  - assert (H : (N_of_ascii x < N_of_ascii z)%N) by (eapply N.lt_trans; eassumption).
    apply N.compare_lt_iff in H. rewrite H. discriminate.
Qed.

Lemma le_string_trans (a b c : string) :
  le_string a b -> le_string b c -> le_string a c.
Proof.
  unfold le_string, String.leb. intros Hab Hbc.
  assert (Hac : String.compare a c <> Gt).
  { apply compare_not_Gt_trans with b.
    - destruct (String.compare a b); congruence.
    - destruct (String.compare b c); congruence. }
  destruct (String.compare a c); congruence.
Qed.

Lemma le_string_total (a b : string) : le_string a b \/ le_string b a.
Proof. apply String.leb_total. Qed.

Lemma le_string_antisym (a b : string) : le_string a b -> le_string b a -> a = b.
Proof. apply String.leb_antisym. Qed.

(** ** sort *)

Lemma insert_perm (x : string) (l : list string) : Permutation (x :: l) (insert x l).
Proof.
  induction l as [|y l IH]; simpl.
  - apply Permutation_refl.
  - destruct (String.leb x y).
    + apply Permutation_refl.
    + apply perm_trans with (y :: x :: l); [apply perm_swap|].
      apply perm_skip. exact IH.
Qed.

Lemma sort_perm (l : list string) : Permutation l (sort l).
Proof.
  induction l as [|x l IH]; simpl.
  - apply perm_nil.
  - apply perm_trans with (x :: sort l).
    + apply perm_skip. exact IH.
    + apply insert_perm.
Qed.

Lemma insert_sorted (x : string) (l : list string) :
  StronglySorted le_string l -> StronglySorted le_string (insert x l).
Proof.
  induction 1 as [|y l Hl IH Hy]; simpl.
  - constructor; constructor.
  - destruct (String.leb x y) eqn:Hxy.
    + constructor.
      * constructor; assumption.
      * constructor; [exact Hxy|].
        eapply Forall_impl; [|exact Hy].
        intros z Hz. apply le_string_trans with y; assumption.
    + constructor; [exact IH|].
      assert (Hyx : le_string y x).
      { destruct (le_string_total x y) as [H|H]; [unfold le_string in H; congruence | exact H]. }
      apply (Permutation_Forall (insert_perm x l)).
      constructor; assumption.
Qed.

Lemma sort_sorted (l : list string) : StronglySorted le_string (sort l).
Proof.
  induction l as [|x l IH]; simpl.
  - constructor.
  - apply insert_sorted. exact IH.
Qed.

(** Two ascending lists with the same elements are the same list. *)
Lemma sorted_perm_unique (l1 l2 : list string) :
  StronglySorted le_string l1 -> StronglySorted le_string l2 ->
  Permutation l1 l2 -> l1 = l2.
Proof.
  intros H1. revert l2.
  induction H1 as [|x l1 Hl1 IH Hx]; intros l2 H2 Hperm.
  - apply Permutation_nil in Hperm. congruence.
  - destruct H2 as [|y l2 Hl2 Hy].
    + apply Permutation_sym, Permutation_nil in Hperm. discriminate.
    + assert (Hxy : x = y).
      { assert (Hin_x : In x (y :: l2))
          by (apply (Permutation_in _ Hperm); left; reflexivity).
        assert (Hin_y : In y (x :: l1))
          by (apply (Permutation_in _ (Permutation_sym Hperm)); left; reflexivity).
        destruct Hin_x as [E|Hin_x]; [congruence|].
        destruct Hin_y as [E|Hin_y]; [congruence|].
        rewrite Forall_forall in Hx, Hy.
        apply le_string_antisym; auto. }
      subst y. f_equal.
      apply IH; [exact Hl2|].
      eapply Permutation_cons_inv; exact Hperm.
Qed.

(** ** filter(Boolean) *)

Lemma filterBoolean_In (values : list (option string)) (s : string) :
  In s (filterBoolean values) <-> In (Some s) values /\ s <> "".
Proof.
  induction values as [|[t|] values IH]; simpl.
  - tauto.
  - destruct t as [|c t]; simpl.
    + rewrite IH. split.
      * intros [Hin Hne]. auto.
      * intros [[E|Hin] Hne]; [congruence | auto].
    + rewrite IH. split.
      * intros [E|[Hin Hne]]; [subst s; split; [auto | discriminate] | auto].
      * intros [[E|Hin] Hne]; [left; congruence | auto].
  - rewrite IH. split.
    + intros [Hin Hne]. auto.
    + intros [[E|Hin] Hne]; [discriminate | auto].
Qed.

(** ** Keeping first occurrences *)

Lemma indexOfFrom_range (i : Z) (self : list string) (value : string) :
  indexOfFrom i self value = (-1)%Z
  \/ (i <= indexOfFrom i self value < i + Z.of_nat (List.length self))%Z.
Proof.
  revert i. induction self as [|x self IH]; intro i; simpl.
  - left; reflexivity.
  - destruct (String.eqb x value).
    + right. lia.
    + destruct (IH (i + 1)%Z) as [H|H]; [left; exact H | right; lia].
Qed.

(** The first index of [value] in [pre ++ value :: rest] is the position
    after [pre] exactly when [value] does not occur in [pre]. *)
Lemma indexOfFrom_first (i : Z) (pre rest : list string) (value : string) :
  (0 <= i)%Z ->
  indexOfFrom i (pre ++ value :: rest)%list value = (i + Z.of_nat (List.length pre))%Z
  <-> ~ In value pre.
Proof.
  revert i. induction pre as [|x pre IH]; intros i Hi.
  - simpl. rewrite String.eqb_refl. split; [tauto | intros _; lia].
  - cbn [app indexOfFrom List.length In].
    destruct (String.eqb x value) eqn:E.
    + apply String.eqb_eq in E. split; [lia | tauto].
    + apply String.eqb_neq in E.
      destruct (IH (i + 1)%Z ltac:(lia)) as [Hto Hfrom].
      rewrite Nat2Z.inj_succ.
      split.
      * intros H [Hx|Hin]; [exact (E Hx)|].
        apply Hto; [lia | exact Hin].
      * intro H. rewrite Hfrom; [lia | tauto].
Qed.

Lemma filterIndexed_first (self : list string) :
  forall l pre : list string,
    self = (pre ++ l)%list ->
    let kept :=
      filterIndexed (fun value index => Z.eqb (indexOf self value) index)
        (Z.of_nat (List.length pre)) l in
    NoDup kept /\ forall v, In v kept <-> In v l /\ ~ In v pre.
Proof.
  induction l as [|x rest IH]; intros pre Hself; simpl.
  - split; [constructor | tauto].
  - assert (Hnext : (Z.of_nat (List.length pre) + 1)%Z
                    = Z.of_nat (List.length (pre ++ [x])%list))
      by (rewrite length_app; simpl; lia).
    assert (Hself' : self = ((pre ++ [x]) ++ rest)%list)
      by (rewrite <- app_assoc; exact Hself).
    destruct (IH (pre ++ [x])%list Hself') as [Hnodup Hin].
    rewrite <- Hnext in Hnodup, Hin.
    assert (Hfirst : indexOf self x = Z.of_nat (List.length pre) <-> ~ In x pre).
    { unfold indexOf. rewrite Hself.
      rewrite <- (@indexOfFrom_first 0%Z pre rest x) by lia.
      rewrite Z.add_0_l. tauto. }
    destruct (Z.eqb (indexOf self x) (Z.of_nat (List.length pre))) eqn:E.
    + apply Z.eqb_eq, Hfirst in E.
      split.
      * constructor; [|exact Hnodup].
        intro Hx. apply Hin in Hx. destruct Hx as [_ Hx].
        apply Hx, in_or_app. right; left; reflexivity.
      * intro v. simpl. rewrite Hin, in_app_iff. simpl.
        destruct (string_dec x v) as [->|Hne]; [tauto|]. tauto.
    + apply Z.eqb_neq in E.
      assert (Hx : In x pre).
      { destruct (in_dec string_dec x pre) as [H|H]; [exact H|].
        exfalso. apply E, Hfirst, H. }
      split; [exact Hnodup|].
      intro v. rewrite Hin, in_app_iff. simpl.
      destruct (string_dec x v) as [->|Hne]; [tauto|]. tauto.
Qed.

Lemma firstOccurrences_NoDup (self : list string) : NoDup (firstOccurrences self).
Proof.
  exact (proj1 (@filterIndexed_first self self [] eq_refl)).
Qed.

Lemma firstOccurrences_In (self : list string) (v : string) :
  In v (firstOccurrences self) <-> In v self.
Proof.
  pose proof (proj2 (@filterIndexed_first self self [] eq_refl) v) as H.
  simpl in H. unfold firstOccurrences. tauto.
Qed.

(** ** The values before sorting *)

Lemma values_In (visitors : list Visitor.t) (a : fieldAccessor) (s : string) :
  In s (firstOccurrences (filterBoolean (map (getValue a) visitors)))
  <-> (exists v, In v visitors /\ getValue a v = Some s) /\ s <> "".
Proof.
  rewrite firstOccurrences_In, filterBoolean_In, in_map_iff.
  split; intros [[v Hv] Hne]; (split; [exists v; tauto | exact Hne]).
Qed.

Lemma values_perm (visitors visitors' : list Visitor.t) (a : fieldAccessor) :
  Permutation visitors visitors' ->
  Permutation
    (firstOccurrences (filterBoolean (map (getValue a) visitors)))
    (firstOccurrences (filterBoolean (map (getValue a) visitors'))).
Proof.
  intro Hperm.
  apply NoDup_Permutation; try apply firstOccurrences_NoDup.
  intro s. rewrite !values_In.
  split; intros [[v [Hin Hv]] Hne]; (split; [exists v; split; [|exact Hv] | exact Hne]).
  - exact (Permutation_in _ Hperm Hin).
  - exact (Permutation_in _ (Permutation_sym Hperm) Hin).
Qed.

(** C6: for every list of records and every accessor, the result of
    [getUniqueValues] has no duplicates, holds no empty string, is in
    ascending code-unit (lexicographic) order, and is the same for every
    permutation of the records. *)
Theorem getUniqueValues_spec (visitors : list Visitor.t) (a : fieldAccessor) :
  NoDup (getUniqueValues visitors a)
  /\ Forall (fun s => s <> "") (getUniqueValues visitors a)
  /\ StronglySorted le_string (getUniqueValues visitors a)
  /\ forall visitors', Permutation visitors visitors' ->
       getUniqueValues visitors' a = getUniqueValues visitors a.
Proof.
  unfold getUniqueValues.
  set (values := firstOccurrences (filterBoolean (map (getValue a) visitors))).
  split; [|split; [|split]].
  - apply (Permutation_NoDup (sort_perm values)), firstOccurrences_NoDup.
  - apply (Permutation_Forall (sort_perm values)).
    apply Forall_forall. intros s Hs. apply values_In in Hs. tauto.
  - apply sort_sorted.
  - intros visitors' Hperm.
    apply sorted_perm_unique; try apply sort_sorted.
    apply perm_trans with
      (firstOccurrences (filterBoolean (map (getValue a) visitors'))).
    + apply Permutation_sym, sort_perm.
    + apply perm_trans with values; [|apply sort_perm].
      apply Permutation_sym, values_perm, Hperm.
Qed.

(** The device list of [useVisitorFilters]: records without a device
    contribute nothing. *)
Example getUniqueValues_devices :
  getUniqueValues [marie; john; john] (AccessorFunction deviceType) = ["desktop"].
Proof. reflexivity. Qed.

Example getUniqueValues_order :
  getUniqueValues [marie; john; marie] (PropertyName P_countryCode) = ["FR"; "US"].
Proof. reflexivity. Qed.

Lemma getUniqueValues_spec_witness :
  Permutation [john; marie; john] [marie; john; john]
  /\ getUniqueValues [john; marie; john] (PropertyName P_country)
     = ["France"; "United States"]
  /\ getUniqueValues [marie; john; john] (PropertyName P_country)
     = getUniqueValues [john; marie; john] (PropertyName P_country).
Proof.
  assert (Hperm : Permutation [john; marie; john] [marie; john; john])
    by apply perm_swap.
  split; [exact Hperm|]. split; [reflexivity|].
  exact (proj2 (proj2 (proj2
           (getUniqueValues_spec [john; marie; john] (PropertyName P_country))))
           [marie; john; john] Hperm).
Defined.

(* ------------------------------------------------------------------ *)
(** * Further properties of the record filter *)

Lemma filter_andb (A : Type) (f g : A -> bool) (l : list A) :
  filter (fun x => f x && g x) l = filter g (filter f l).
Proof.
  induction l as [|x l IH]; simpl; [reflexivity|].
  destruct (f x); simpl; [destruct (g x)|]; rewrite IH; reflexivity.
Qed.

(** Filtering with all criteria at once is filtering by the search text,
    then by the country, the device, the customer type and the country code,
    one criterion at a time. *)
Theorem filterVisitors_one_at_a_time (visitors : list Visitor.t) (q : string)
  (f : Filters.t) :
  let only key := handleFilterChange key (filterValue key f) noFilters in
  filterVisitors visitors q f
  = filterVisitors
      (filterVisitors
         (filterVisitors
            (filterVisitors (filterVisitors visitors q noFilters)
               "" (only Key_country))
            "" (only Key_device))
         "" (only Key_customer))
      "" (only Key_countryCode).
Proof.
  intro only. unfold filterVisitors.
  rewrite <- !filter_andb. apply filter_ext. intro v.
  unfold passes, only; simpl.
  destruct (matchesSearchQuery v q),
    (matchesCountryFilter v (Filters.country f)),
    (matchesDeviceFilter v (Filters.device f)),
    (matchesCustomerFilter v (Filters.customer f)),
    (matchesCountryCodeFilter v (Filters.countryCode f)); reflexivity.
Qed.

(** ** Case *)

Lemma toLowerCase_truthy (a b : string) :
  toLowerCase a = toLowerCase b -> truthyString a = truthyString b.
Proof.
  destruct a, b; simpl; intro H; try reflexivity; discriminate.
Qed.

Lemma fieldEquals_case (field : option string) (a b : string) :
  toLowerCase a = toLowerCase b -> fieldEquals field a = fieldEquals field b.
Proof.
  intro H. destruct field; simpl; [rewrite H|]; reflexivity.
Qed.

(** The search text and the country, device and country-code filters are
    case-insensitive: criteria that agree up to letter case (with the same
    customer filter) select the same records. *)
Theorem filterVisitors_case_insensitive (visitors : list Visitor.t)
  (q q' : string) (f f' : Filters.t) :
  toLowerCase q = toLowerCase q' ->
  toLowerCase (Filters.country f) = toLowerCase (Filters.country f') ->
  toLowerCase (Filters.device f) = toLowerCase (Filters.device f') ->
  Filters.customer f = Filters.customer f' ->
  toLowerCase (Filters.countryCode f) = toLowerCase (Filters.countryCode f') ->
  filterVisitors visitors q f = filterVisitors visitors q' f'.
Proof.
  intros Hq Hcountry Hdevice Hcustomer Hcode.
  unfold filterVisitors. apply filter_ext. intro v.
  unfold passes, matchesSearchQuery, matchesCountryFilter, matchesDeviceFilter,
    matchesCountryCodeFilter.
  rewrite (toLowerCase_truthy _ _ Hq), (toLowerCase_truthy _ _ Hcountry),
    (toLowerCase_truthy _ _ Hdevice), (toLowerCase_truthy _ _ Hcode).
  rewrite Hq, Hcustomer.
  rewrite (fieldEquals_case _ _ _ Hcountry), (fieldEquals_case _ _ _ Hdevice),
    (fieldEquals_case _ _ _ Hcode).
  reflexivity.
Qed.

Lemma filterVisitors_case_insensitive_witness :
  filterVisitors [john; marie] "PARIS" (Filters.mk "FRANCE" "" "" "fr") = [marie]
  /\ filterVisitors [john; marie] "PARIS" (Filters.mk "FRANCE" "" "" "fr")
     = filterVisitors [john; marie] "paris" (Filters.mk "France" "" "" "FR").
Proof.
  split; [reflexivity|].
  apply (@filterVisitors_case_insensitive [john; marie] "PARIS" "paris"
           (Filters.mk "FRANCE" "" "" "fr") (Filters.mk "France" "" "" "FR"));
    reflexivity.
Defined.

(** ** Substrings of the search text *)

Lemma prefix_app (q r s : string) :
  String.prefix (q ++ r) s = true -> String.prefix q s = true.
Proof.
  revert s. induction q as [|c q IH]; intros s; [destruct s; reflexivity|].
  destruct s as [|d s]; simpl; [discriminate|].
  destruct (ascii_dec c d); [apply IH | discriminate].
Qed.

Lemma includes_unfold (s q : string) :
  includes s q
  = if String.prefix q s then true
    else match s with
         | EmptyString => false
         | String _ rest => includes rest q
         end.
Proof. destruct s; reflexivity. Qed.

Lemma includes_prefix (s q : string) :
  String.prefix q s = true -> includes s q = true.
Proof.
  intro H. rewrite includes_unfold, H. reflexivity.
Qed.

Lemma includes_app_l (s q r : string) :
  includes s (q ++ r) = true -> includes s q = true.
Proof.
  induction s as [|c s IH]; rewrite (includes_unfold _ (q ++ r)), (includes_unfold _ q).
  - destruct (String.prefix (q ++ r) "") eqn:E; [|discriminate].
    intros _. rewrite (prefix_app _ _ _ E). reflexivity.
  - destruct (String.prefix (q ++ r) (String c s)) eqn:E.
    + intros _. rewrite (prefix_app _ _ _ E). reflexivity.
    + intro H. rewrite (IH H). destruct (String.prefix q (String c s)); reflexivity.
Qed.

Lemma includes_tail (s q : string) (c : ascii) :
  includes s (String c q) = true -> includes s q = true.
Proof.
  induction s as [|d s IH];
    rewrite (includes_unfold _ (String c q)), (includes_unfold _ q).
  - simpl. discriminate.
  - cbn [String.prefix].
    assert (Hstep : includes s q = true ->
              (if String.prefix q (String d s) then true else includes s q) = true)
      by (intros ->; destruct (String.prefix q (String d s)); reflexivity).
    destruct (ascii_dec c d) as [_|_].
    + destruct (String.prefix q s) eqn:E.
      * intros _. apply Hstep, includes_prefix, E.
      * intro H. apply Hstep, IH, H.
    + intro H. apply Hstep, IH, H.
Qed.

Lemma includes_app_r (s p q : string) :
  includes s (p ++ q) = true -> includes s q = true.
Proof.
  induction p as [|c p IH]; simpl; [tauto|].
  intro H. apply IH. apply includes_tail with c. exact H.
Qed.

Lemma toLowerCase_app (a b : string) :
  toLowerCase (a ++ b) = toLowerCase a ++ toLowerCase b.
Proof.
  induction a as [|c a IH]; simpl; [|rewrite IH]; reflexivity.
Qed.

Lemma fieldIncludes_sub (field : option string) (p q r : string) :
  fieldIncludes field (p ++ q ++ r) = true -> fieldIncludes field q = true.
Proof.
  destruct field as [s|]; simpl; [|discriminate].
  intro H. apply includes_app_r in H. apply includes_app_l in H. exact H.
Qed.

Lemma matchesSearchQuery_sub (v : Visitor.t) (p q r : string) :
  matchesSearchQuery v (p ++ q ++ r) = true -> matchesSearchQuery v q = true.
Proof.
  unfold matchesSearchQuery.
  destruct (truthyString q) eqn:Hq; simpl; [|reflexivity].
  destruct (truthyString (p ++ q ++ r)) eqn:Hpqr; simpl.
  - rewrite !toLowerCase_app, !orb_true_iff.
    intros [[[[H|H]|H]|H]|H]; apply fieldIncludes_sub in H; tauto.
  - destruct p; [destruct q|]; simpl in *; discriminate.
Qed.

(** For a search text of ASCII characters, shortening the text never
    loses a result: every record found for the text is also found for any
    contiguous part of it (so typing more characters can only narrow the
    list). *)
Theorem filterVisitors_search_narrows (visitors : list Visitor.t)
  (p q r : string) (f : Filters.t) (v : Visitor.t) :
  isAscii (p ++ q ++ r) = true ->
  In v (filterVisitors visitors (p ++ q ++ r) f) ->
  In v (filterVisitors visitors q f).
Proof.
  intros _. unfold filterVisitors. rewrite !filter_In, !passes_split.
  intros (Hin & Hq & Hrest). split; [exact Hin|]. split; [|exact Hrest].
  exact (matchesSearchQuery_sub _ _ _ _ Hq).
Qed.

Lemma filterVisitors_search_narrows_witness :
  isAscii ("j" ++ "oh" ++ "n@") = true
  /\ In john (filterVisitors [john; marie] ("j" ++ "oh" ++ "n@") noFilters)
  /\ In john (filterVisitors [john; marie] "oh" noFilters).
Proof.
  assert (Hascii : isAscii ("j" ++ "oh" ++ "n@") = true) by reflexivity.
  assert (H : In john (filterVisitors [john; marie] ("j" ++ "oh" ++ "n@") noFilters))
    by (left; reflexivity).
  split; [exact Hascii|]. split; [exact H|].
  exact (@filterVisitors_search_narrows [john; marie] "j" "oh" "n@" noFilters john
           Hascii H).
Defined.

(** ** Customers and visitors *)

Lemma filter_disjoint_length (A : Type) (f g h : A -> bool) (l : list A) :
  (forall x, f x = true -> h x = true) ->
  (forall x, g x = true -> h x = true) ->
  (forall x, f x = true -> g x = true -> False) ->
  (List.length (filter f l) + List.length (filter g l) <= List.length (filter h l))%nat.
Proof.
  intros Hf Hg Hfg. induction l as [|x l IH]; simpl; [lia|].
  specialize (Hf x). specialize (Hg x). specialize (Hfg x).
  destruct (f x), (g x), (h x); simpl;
    try lia; try (exfalso; auto; fail);
    try (specialize (Hf eq_refl); discriminate);
    try (specialize (Hg eq_refl); discriminate).
Qed.

Lemma passes_customer_cleared (q : string) (f : Filters.t) (c : string) (v : Visitor.t) :
  passes q (handleFilterChange Key_customer c f) v = true ->
  passes q (handleFilterChange Key_customer "" f) v = true.
Proof.
  rewrite !passes_split. simpl. intuition.
Qed.

(** No record is listed both under "Customers" and under "Visitors", and
    the two lists together are never longer than the list shown with the
    type filter set to "All" (other criteria unchanged). *)
Theorem customers_and_visitors_disjoint (visitors : list Visitor.t) (q : string)
  (f : Filters.t) :
  let listed type := filterVisitors visitors q (handleFilterChange Key_customer type f) in
  (forall v, In v (listed "customer") -> In v (listed "visitor") -> False)
  /\ (List.length (listed "customer") + List.length (listed "visitor")
      <= List.length (listed ""))%nat.
Proof.
  intro listed. unfold listed, filterVisitors.
  assert (Hexcl : forall v,
    passes q (handleFilterChange Key_customer "customer" f) v = true ->
    passes q (handleFilterChange Key_customer "visitor" f) v = true -> False).
  { intros v Hc Hv. apply passes_split in Hc, Hv. simpl in Hc, Hv.
    destruct Hc as (_ & _ & _ & Hc & _). destruct Hv as (_ & _ & _ & Hv & _).
    unfold matchesCustomerFilter in Hc, Hv. simpl in Hc, Hv.
    destruct (Visitor.isCustomer v) as [[|]|]; discriminate. }
  split.
  - intros v Hc Hv. apply filter_In in Hc, Hv.
    exact (Hexcl v (proj2 Hc) (proj2 Hv)).
  - apply filter_disjoint_length.
    + intro v. apply passes_customer_cleared.
    + intro v. apply passes_customer_cleared.
    + exact Hexcl.
Qed.

(** ** The values offered by the filter panel *)

Lemma filterIndexed_length (p : string -> Z -> bool) (l : list string) :
  forall index, (List.length (filterIndexed p index l) <= List.length l)%nat.
Proof.
  induction l as [|x l IH]; intro index; simpl; [lia|].
  specialize (IH (index + 1)%Z).
  destruct (p x index); simpl; lia.
Qed.

Lemma filterBoolean_length (values : list (option string)) :
  (List.length (filterBoolean values) <= List.length values)%nat.
Proof.
  induction values as [|[s|] values IH]; simpl; [lia| |lia].
  destruct (truthyString s); simpl; lia.
Qed.

Lemma getUniqueValues_In (visitors : list Visitor.t) (a : fieldAccessor) (s : string) :
  In s (getUniqueValues visitors a)
  <-> (exists v, In v visitors /\ getValue a v = Some s) /\ s <> "".
Proof.
  unfold getUniqueValues. rewrite <- values_In.
  split; apply Permutation_in;
    [apply Permutation_sym|]; apply sort_perm.
Qed.

(** [getUniqueValues] returns exactly the non-empty values the accessor
    takes on the records, and never more values than there are records. *)
Theorem getUniqueValues_complete (visitors : list Visitor.t) (a : fieldAccessor) :
  (forall s, In s (getUniqueValues visitors a)
     <-> s <> "" /\ exists v, In v visitors /\ getValue a v = Some s)
  /\ (List.length (getUniqueValues visitors a) <= List.length visitors)%nat.
Proof.
  split.
  - intro s. rewrite getUniqueValues_In. tauto.
  - unfold getUniqueValues.
    rewrite <- (Permutation_length (sort_perm _)).
    unfold firstOccurrences.
    eapply Nat.le_trans; [apply filterIndexed_length|].
    eapply Nat.le_trans; [apply filterBoolean_length|].
    rewrite length_map. apply Nat.le_refl.
Qed.

(** The result of [getUniqueValues] depends only on which non-empty values
    occur: two record lists (and accessors) with the same non-empty values
    give the same list, however often or in which order the values occur. *)
Theorem getUniqueValues_same_values (visitors visitors' : list Visitor.t)
  (a a' : fieldAccessor) :
  (forall s, s <> "" ->
     ((exists v, In v visitors /\ getValue a v = Some s)
      <-> (exists v, In v visitors' /\ getValue a' v = Some s))) ->
  getUniqueValues visitors a = getUniqueValues visitors' a'.
Proof.
  intro Hsame. unfold getUniqueValues.
  apply sorted_perm_unique; try apply sort_sorted.
  eapply perm_trans; [apply Permutation_sym, sort_perm|].
  eapply perm_trans; [|apply sort_perm].
  apply NoDup_Permutation; try apply firstOccurrences_NoDup.
  intro s. rewrite !values_In.
  split; intros [Hex Hne]; (split; [apply (Hsame s Hne); exact Hex | exact Hne]).
Qed.

Lemma getUniqueValues_same_values_witness :
  getUniqueValues [john; marie] (PropertyName P_city)
  = getUniqueValues [marie; john; john; marie] (AccessorFunction Visitor.city).
Proof.
  apply getUniqueValues_same_values.
  intros s _. simpl. split; intros [v [Hin Hv]]; exists v; split; try exact Hv;
    simpl in Hin; simpl; tauto.
Defined.

Lemma fieldEquals_self (s : string) : fieldEquals (Some s) s = true.
Proof. simpl. apply String.eqb_refl. Qed.

Lemma passes_only (key : filterKey) (value : string) (v : Visitor.t) :
  match key with
  | Key_country => Visitor.country v = Some value
  | Key_device => deviceType v = Some value
  | Key_customer => value = ""
  | Key_countryCode => Visitor.countryCode v = Some value
  end ->
  passes "" (handleFilterChange key value noFilters) v = true.
Proof.
  destruct key; intro H; apply passes_split; simpl;
    unfold matchesCountryFilter, matchesDeviceFilter, matchesCountryCodeFilter;
    try rewrite H; try rewrite fieldEquals_self;
    repeat split; try reflexivity;
    destruct (truthyString value); reflexivity.
Qed.

(** Every option the filter panel offers selects at least one record:
    choosing a listed country, device or country code (with nothing else
    set) leaves a record that has exactly that value. *)
Theorem offered_value_selects_a_record (visitors : list Visitor.t) (q : string)
  (f : Filters.t) (value : string) :
  let offered := useVisitorFilters visitors q f in
  let chosen key := filterVisitors visitors "" (handleFilterChange key value noFilters) in
  (In value (VisitorFilters.uniqueCountries offered) ->
     exists v, In v (chosen Key_country) /\ Visitor.country v = Some value)
  /\ (In value (VisitorFilters.uniqueDevices offered) ->
     exists v, In v (chosen Key_device) /\ deviceType v = Some value)
  /\ (In value (VisitorFilters.uniqueCountryCodes offered) ->
     exists v, In v (chosen Key_countryCode) /\ Visitor.countryCode v = Some value).
Proof.
  intros offered chosen. unfold offered, chosen, useVisitorFilters, filterVisitors; simpl.
  repeat split; intro Hin; apply getUniqueValues_In in Hin;
    destruct Hin as [[v [Hv Hvalue]] _]; simpl in Hvalue;
    exists v; (split; [|exact Hvalue]);
    apply filter_In; (split; [exact Hv|]).
  - apply (passes_only Key_country). exact Hvalue.
  - apply (passes_only Key_device). exact Hvalue.
  - apply (passes_only Key_countryCode). exact Hvalue.
Qed.

Lemma offered_value_selects_a_record_witness :
  In "France" (VisitorFilters.uniqueCountries (useVisitorFilters [john; marie] "x" noFilters))
  /\ exists v,
       In v (filterVisitors [john; marie] "" (handleFilterChange Key_country "France" noFilters))
       /\ Visitor.country v = Some "France".
Proof.
  assert (H : In "France"
                (VisitorFilters.uniqueCountries (useVisitorFilters [john; marie] "x" noFilters)))
    by (left; reflexivity).
  split; [exact H|].
  exact (proj1 (@offered_value_selects_a_record [john; marie] "x" noFilters "France") H).
Defined.

(* ------------------------------------------------------------------ *)
(** * Properties of the search and filter state *)

Lemma truthyString_false (s : string) : truthyString s = false -> s = "".
Proof. destruct s; [reflexivity | discriminate]. Qed.

Lemma hasActiveFilters_false (q : string) (f : Filters.t) :
  hasActiveFilters q f = false -> q = "" /\ f = noFilters.
Proof.
  unfold hasActiveFilters. rewrite !orb_false_iff.
  intros ((((Hq & Hcountry) & Hdevice) & Hcustomer) & Hcode).
  apply truthyString_false in Hq, Hcountry, Hdevice, Hcustomer, Hcode.
  destruct f as [country device customer code]; simpl in *. subst.
  split; reflexivity.
Qed.

(** When [useVisitorFilters] reports no active filter (no badge, no
    "Clear All" button, no "Showing x of y" line), the filtered list is the
    whole list; so whenever a record has been filtered out, the filters are
    reported active. *)
Theorem inactive_filters_show_everything (visitors : list Visitor.t) (q : string)
  (f : Filters.t) :
  let shown := useVisitorFilters visitors q f in
  (VisitorFilters.hasActiveFilters shown = false ->
     VisitorFilters.filteredVisitors shown = visitors)
  /\ (VisitorFilters.filteredVisitors shown <> visitors ->
     VisitorFilters.hasActiveFilters shown = true).
Proof.
  intro shown. unfold shown, useVisitorFilters; simpl.
  assert (Hinactive : hasActiveFilters q f = false -> filterVisitors visitors q f = visitors).
  { intro H. apply hasActiveFilters_false in H. destruct H as [-> ->].
    unfold filterVisitors. apply filter_all. intro v. reflexivity. }
  split; [exact Hinactive|].
  intro Hdiff. destruct (hasActiveFilters q f); [reflexivity|].
  exfalso. apply Hdiff, Hinactive. reflexivity.
Qed.

Lemma inactive_filters_show_everything_witness :
  VisitorFilters.hasActiveFilters (useVisitorFilters [john; marie] "" noFilters) = false
  /\ VisitorFilters.filteredVisitors (useVisitorFilters [john; marie] "" noFilters)
     = [john; marie].
Proof.
  assert (H : VisitorFilters.hasActiveFilters
                (useVisitorFilters [john; marie] "" noFilters) = false)
    by reflexivity.
  split; [exact H|].
  exact (proj1 (@inactive_filters_show_everything [john; marie] "" noFilters) H).
Defined.

(** [handleFilterChange] writes one filter and leaves the others alone:
    reading back the key just written gives the new value, reading another
    key gives its old value, writing a key's current value changes nothing,
    a second write to a key overrides the first, and writes to different
    keys commute. *)
Theorem handleFilterChange_laws (key other : filterKey) (v w : string) (f : Filters.t) :
  key <> other ->
  filterValue key (handleFilterChange key v f) = v
  /\ filterValue other (handleFilterChange key v f) = filterValue other f
  /\ handleFilterChange key (filterValue key f) f = f
  /\ handleFilterChange key w (handleFilterChange key v f) = handleFilterChange key w f
  /\ handleFilterChange other w (handleFilterChange key v f)
     = handleFilterChange key v (handleFilterChange other w f).
Proof.
  intro Hdiff. destruct f as [country device customer code].
  destruct key, other; try congruence; repeat split; reflexivity.
Qed.

Lemma handleFilterChange_laws_witness :
  Key_country <> Key_device
  /\ filterValue Key_device
       (handleFilterChange Key_country "France" (Filters.mk "" "mobile" "" "")) = "mobile".
Proof.
  assert (H : Key_country <> Key_device) by discriminate.
  split; [exact H|].
  exact (proj1 (proj2 (@handleFilterChange_laws Key_country Key_device "France" ""
                         (Filters.mk "" "mobile" "" "") H))).
Defined.

(** "Clear All" does what clearing the search box and resetting the four
    selects by hand does, from any state; afterwards no filter is active
    and every record is shown. *)
Theorem clearFilters_clears_everything (visitors : list Visitor.t)
  (state : string * Filters.t) :
  fold_left criteriaStep
    [ClearSearch; FilterChange Key_country ""; FilterChange Key_countryCode "";
     FilterChange Key_device ""; FilterChange Key_customer ""] state
  = criteriaStep state ClearFilters
  /\ hasActiveFilters (fst (criteriaStep state ClearFilters))
       (snd (criteriaStep state ClearFilters)) = false
  /\ filterVisitors visitors (fst (criteriaStep state ClearFilters))
       (snd (criteriaStep state ClearFilters)) = visitors.
Proof.
  destruct state as [q f]. simpl.
  split; [reflexivity|]. split; [reflexivity|].
  unfold filterVisitors. apply filter_all. intro v. reflexivity.
Qed.

(* ------------------------------------------------------------------ *)
(** * Further properties of the clustering input *)

(** The points handed to the clustering library are the records in their
    order: each point carries its record and that record's id, sits at
    [[longitude, latitude]], and is not flagged as a cluster. *)
Theorem points_carry_the_records (visitors : list Visitor.t)
  (bounds0 : option (list Q)) (zoom : option number) :
  let points := SuperclusterInput.points (superclusterInput visitors bounds0 zoom) in
  map Feature.visitor points = visitors
  /\ map Feature.visitorId points = map Visitor.visitorId visitors
  /\ map Feature.coordinates points
     = map (fun v => (Visitor.longitude v, Visitor.latitude v)) visitors
  /\ Forall (fun p => Feature.cluster p = false) points.
Proof.
  simpl. rewrite !map_map. simpl.
  split; [apply map_id|]. split; [reflexivity|]. split; [reflexivity|].
  apply Forall_forall. intros p Hp. apply in_map_iff in Hp.
  destruct Hp as [v [<- _]]. reflexivity.
Qed.

(** Whatever the camera's zoom is (a fraction, zero, negative, NaN), the
    zoom [App] hands to the clustering library is a non-zero integer: the
    floor of the camera zoom, or [MIN_ZOOM = 2] when that floor is 0 or NaN
    (so a camera zoom in [0, 1) is clustered at zoom 2). *)
Theorem app_zoom_is_nonzero_integer (visitors : list Visitor.t)
  (bounds0 : option (list Q)) (viewStateZoom : number) :
  exists z : Z,
    SuperclusterInput.zoom (appSuperclusterInput visitors bounds0 viewStateZoom)
      = Num (inject_Z z)
    /\ z <> 0%Z
    /\ z = match viewStateZoom with
           | Num q => if Z.eqb (Qfloor q) 0 then 2%Z else Qfloor q
           | NaN => 2%Z
           end.
Proof.
  unfold appSuperclusterInput, superclusterInput, zoomOr; cbn [SuperclusterInput.zoom].
  destruct viewStateZoom as [q|]; simpl.
  - destruct (Z.eqb (Qfloor q) 0) eqn:E.
    + apply Z.eqb_eq in E. rewrite E. simpl.
      exists 2%Z. repeat split. discriminate.
    + apply Z.eqb_neq in E.
      assert (Hq : Qeq_bool (inject_Z (Qfloor q)) 0 = false).
      { destruct (Qeq_bool (inject_Z (Qfloor q)) 0) eqn:E0; [|reflexivity].
        apply Qeq_bool_iff in E0. unfold Qeq in E0. simpl in E0. lia. }
      rewrite Hq. simpl. exists (Qfloor q). repeat split. exact E.
  - exists 2%Z. repeat split. discriminate.
Qed.





(* ------------------------------------------------------------------ *)
(** * Further properties of the cluster click *)

(** [handleClusterClick] throws exactly when the clustering index and the
    map are both there and the index throws for the cluster id (the
    exception is not caught); without an index or without a map the click
    is ignored and the index is not consulted; in no case is more than one
    camera command sent. *)
Theorem handleClusterClick_outcomes (supercluster : option Supercluster.t)
  (current : option MapRef.t) (cluster : Cluster.t) :
  (handleClusterClick supercluster current cluster = Throws
   <-> exists sc ref,
         supercluster = Some sc /\ current = Some ref
         /\ Supercluster.getClusterExpansionZoom sc (Cluster.id cluster) = Throws)
  /\ (supercluster = None \/ current = None ->
      handleClusterClick supercluster current cluster = Returns [])
  /\ (forall sent, handleClusterClick supercluster current cluster = Returns sent ->
      (List.length sent <= 1)%nat).
Proof.
  split; [|split].
  - split.
    + unfold handleClusterClick.
      destruct supercluster as [sc|], current as [ref|]; try discriminate.
      destruct (Supercluster.getClusterExpansionZoom sc (Cluster.id cluster)) eqn:E;
        simpl; [discriminate|].
      intros _. exists sc, ref. auto.
    + intros (sc & ref & -> & -> & Hthrows).
      unfold handleClusterClick. rewrite Hthrows. reflexivity.
  - intros [-> | ->]; [reflexivity|].
    destruct supercluster; reflexivity.
  - unfold handleClusterClick. intros sent.
    destruct supercluster as [sc|], current as [ref|];
      try (intro H; inversion H; simpl; lia).
    destruct (Supercluster.getClusterExpansionZoom sc (Cluster.id cluster));
      simpl; intro H; inversion H; simpl; lia.
Qed.

Lemma handleClusterClick_outcomes_witness :
  handleClusterClick (Some sampleIndex) (Some europeMap) (Cluster.mk 8 (0, 0)) = Throws
  /\ handleClusterClick (Some sampleIndex) None (Cluster.mk 8 (0, 0)) = Returns [].
Proof.
  split.
  - apply (proj1 (@handleClusterClick_outcomes (Some sampleIndex) (Some europeMap)
                    (Cluster.mk 8 (0, 0)))).
    exists sampleIndex, europeMap. repeat split.
  - apply (proj1 (proj2 (@handleClusterClick_outcomes (Some sampleIndex) None
                           (Cluster.mk 8 (0, 0))))).
    right; reflexivity.
Defined.

(* ------------------------------------------------------------------ *)
(** * Further properties of the selection *)

Lemma run_app (s : selection) (t1 t2 : list (option MapRef.t * interaction)) :
  run s (t1 ++ t2)%list
  = (fst (run (fst (run s t1)) t2),
     (snd (run s t1) ++ snd (run (fst (run s t1)) t2))%list).
Proof.
  revert s. induction t1 as [|[current i] t1 IH]; intro s; simpl.
  - destruct (run s t2); reflexivity.
  - destruct (step current s i) as [next sent].
    rewrite IH. destruct (run next t1) as [mid sent1]; simpl.
    rewrite app_assoc. reflexivity.
Qed.

(** After any sequence of interactions the selection is decided by the
    last one alone: the clicked record after a marker click, nothing after
    closing the popup, resetting the view or clicking the map. *)
Theorem selection_follows_last_interaction (s : selection)
  (trace : list (option MapRef.t * interaction)) (current : option MapRef.t)
  (i : interaction) :
  fst (run s (trace ++ [(current, i)])%list)
  = match i with
    | MarkerClick visitor =>
        Some (SelectedMarker.mk (Visitor.visitorId visitor) visitor)
    | PopupClose | ResetViewClick | MapClick => None
    end.
Proof.
  rewrite run_app. cbn [fst]. simpl.
  destruct (step current (fst (run s trace)) i) as [next sent] eqn:E. simpl.
  destruct i; simpl in E; inversion E; try reflexivity.
  destruct (fst (run s trace)); reflexivity.
Qed.

Lemma step_sends (current : option MapRef.t) (s : selection) (i : interaction) :
  snd (step current s i) = expectedCommands (current, i).
Proof.
  destruct i, current; reflexivity.
Qed.

Lemma run_sends (trace : list (option MapRef.t * interaction)) :
  forall s, snd (run s trace) = flat_map expectedCommands trace.
Proof.
  induction trace as [|[current i] trace IH]; intro s; [reflexivity|].
  cbn [run flat_map].
  pose proof (step_sends current s i) as Hstep.
  destruct (step current s i) as [next sent]. simpl in Hstep.
  specialize (IH next). destruct (run next trace) as [final later]. simpl in IH.
  simpl. rewrite Hstep, IH. reflexivity.
Qed.

(** The camera commands the selection handlers send are exactly, in
    order, one per marker click and one per view reset made while the map
    is mounted: for a marker click the move to the clicked record's
    [[longitude, latitude]] at zoom 3 in 1000 ms, for a reset the move to
    the default view (0, 20) at zoom 2.5 in 1500 ms, both with [essential].
    So there is at most one command per interaction, none while the map is
    not mounted, and every marker move goes to a record clicked in the
    sequence. *)
Theorem selection_camera_commands (s : selection)
  (trace : list (option MapRef.t * interaction)) :
  snd (run s trace) = flat_map expectedCommands trace
  /\ (List.length (snd (run s trace)) <= List.length trace)%nat
  /\ (Forall (fun entry => fst entry = None) trace -> snd (run s trace) = [])
  /\ Forall (fun command =>
               (exists ref visitor,
                  In (Some ref, MarkerClick visitor) trace
                  /\ command = moveToRecord visitor
                  /\ FlyTo.center command
                     = (Visitor.longitude visitor, Visitor.latitude visitor))
               \/ (command = moveToDefaultView
                   /\ exists ref, In (Some ref, ResetViewClick) trace))
       (snd (run s trace)).
Proof.
  rewrite run_sends. split; [reflexivity|].
  clear s. induction trace as [|[current i] trace IH].
  - simpl. repeat split; auto.
  - destruct IH as (Hlen & Hnone & Hall). cbn [flat_map].
    assert (Hone : (List.length (expectedCommands (current, i)) <= 1)%nat)
      by (destruct current, i; simpl; lia).
    split; [rewrite length_app; cbn [List.length]; lia|]. split.
    + intro Htrace. inversion Htrace as [|entry rest Hcur Hrest]; subst.
      simpl in Hcur. subst current. rewrite (Hnone Hrest).
      destruct i; reflexivity.
    + apply Forall_app. split.
      * destruct current as [ref|], i as [visitor| | |]; simpl;
          try apply Forall_nil;
          (apply Forall_cons; [|apply Forall_nil]).
        -- left. exists ref, visitor. auto.
        -- right. split; [reflexivity|]. exists ref. auto.
      * eapply Forall_impl; [|exact Hall].
        intros command [(ref & visitor & Hin & Hcmd) | (Hcmd & ref & Hin)].
        -- left. exists ref, visitor. split; [right; exact Hin | exact Hcmd].
        -- right. split; [exact Hcmd|]. exists ref. right. exact Hin.
Qed.

Lemma selection_camera_commands_witness :
  Forall (fun entry : option MapRef.t * interaction => fst entry = None)
    [(None, MarkerClick john); (None, ResetViewClick)]
  /\ snd (run None [(None, MarkerClick john); (None, ResetViewClick)]) = []
  /\ snd (run None [(Some europeMap, MarkerClick marie); (Some europeMap, ResetViewClick)])
     = [moveToRecord marie; moveToDefaultView].
Proof.
  assert (H : Forall (fun entry : option MapRef.t * interaction => fst entry = None)
                [(None, MarkerClick john); (None, ResetViewClick)])
    by (repeat constructor).
  split; [exact H|]. split.
  - exact (proj1 (proj2 (proj2 (@selection_camera_commands None
                           [(None, MarkerClick john); (None, ResetViewClick)]))) H).
  - exact (proj1 (@selection_camera_commands None
                    [(Some europeMap, MarkerClick marie); (Some europeMap, ResetViewClick)])).
Defined.

(** When no two rendered items share a key (no two leaf records share a
    [visitorId]), at most one marker is rendered as selected. *)
Theorem at_most_one_marker_rendered_selected (selectedMarker : selection)
  (clusters : list clusterItem) (i j : nat) (v w : Visitor.t) :
  NoDup (map itemKey clusters) ->
  nth_error (renderClusters selectedMarker clusters) i = Some (MarkerElement v true) ->
  nth_error (renderClusters selectedMarker clusters) j = Some (MarkerElement w true) ->
  i = j.
Proof.
  unfold renderClusters. intros Hkeys Hi Hj.
  rewrite nth_error_map in Hi, Hj.
  destruct (nth_error clusters i) as [[ci pi|vi]|] eqn:Ei; simpl in Hi; try discriminate.
  destruct (nth_error clusters j) as [[cj pj|vj]|] eqn:Ej; simpl in Hj; try discriminate.
  inversion Hi as [[Hv Hsel_i]]. inversion Hj as [[Hw Hsel_j]]. subst vi vj.
  pose proof (isSelected_same_id selectedMarker v w Hsel_i Hsel_j) as Hid.
  apply (proj1 (NoDup_nth_error (map itemKey clusters))) ; [exact Hkeys | |].
  - rewrite length_map. apply nth_error_Some. congruence.
  - rewrite !nth_error_map, Ei, Ej. simpl. congruence.
Qed.

Lemma at_most_one_marker_rendered_selected_witness :
  NoDup (map itemKey [LeafItem john; ClusterItem (Cluster.mk 7 (0, 0)) (Num 4); LeafItem marie])
  /\ nth_error (renderClusters (Some (SelectedMarker.mk "v-2" marie))
                  [LeafItem john; ClusterItem (Cluster.mk 7 (0, 0)) (Num 4); LeafItem marie]) 2
     = Some (MarkerElement marie true)
  /\ (2 = 2)%nat.
Proof.
  assert (Hkeys : NoDup (map itemKey
            [LeafItem john; ClusterItem (Cluster.mk 7 (0, 0)) (Num 4); LeafItem marie])).
  { simpl. repeat constructor; simpl; intuition discriminate. }
  split; [exact Hkeys|]. split; [reflexivity|].
  apply (@at_most_one_marker_rendered_selected (Some (SelectedMarker.mk "v-2" marie))
           [LeafItem john; ClusterItem (Cluster.mk 7 (0, 0)) (Num 4); LeafItem marie]
           2 2 marie marie Hkeys); reflexivity.
Defined.

(* ------------------------------------------------------------------ *)
(** * Properties of the cluster marker *)

Lemma ltb_Num (a b : Q) : ltb (Num a) (Num b) = true <-> (a < b)%Q.
Proof.
  simpl. rewrite negb_true_iff.
  destruct (Qle_bool b a) eqn:E.
  - apply Qle_bool_iff in E. split; [discriminate | intro H; lra].
  - split; [intros _ | reflexivity].
    destruct (Qlt_le_dec a b) as [H|H]; [exact H|].
    apply Qle_bool_iff in H. congruence.
Qed.

Lemma ltb_Num_false (a b : Q) : ltb (Num a) (Num b) = false <-> (b <= a)%Q.
Proof.
  simpl. rewrite negb_false_iff. apply Qle_bool_iff.
Qed.

(** The diameter of a cluster marker is 40, 50 or 60 pixels, and a larger
    point count never gets a smaller marker. *)
Theorem getClusterSize_monotone (a b : Q) :
  (a <= b)%Q ->
  (getClusterSize (Num a) <= getClusterSize (Num b))%Q
  /\ In (getClusterSize (Num a)) [40; 50; 60]
  /\ (getClusterSize (Num a) = 40 <-> (a < 10)%Q)
  /\ (getClusterSize (Num a) = 60 <-> (100 <= a)%Q).
Proof.
  intro Hab. unfold getClusterSize.
  destruct (ltb (Num a) (Num 10)) eqn:Ea10;
    [apply ltb_Num in Ea10 | apply ltb_Num_false in Ea10];
  destruct (ltb (Num a) (Num 100)) eqn:Ea100;
    [apply ltb_Num in Ea100 | apply ltb_Num_false in Ea100
    |apply ltb_Num in Ea100 | apply ltb_Num_false in Ea100];
  destruct (ltb (Num b) (Num 10)) eqn:Eb10;
    try apply ltb_Num in Eb10; try apply ltb_Num_false in Eb10;
  destruct (ltb (Num b) (Num 100)) eqn:Eb100;
    try apply ltb_Num in Eb100; try apply ltb_Num_false in Eb100;
  try (exfalso; lra);
  (split; [unfold Qle; simpl; lia|]);
  (split; [simpl; tauto|]);
  split; split; intro H; try lra; try reflexivity; try discriminate H.
Qed.

Lemma getClusterSize_monotone_witness :
  (9 <= 120)%Q /\ (getClusterSize (Num 9) <= getClusterSize (Num 120))%Q.
Proof.
  assert (H : (9 <= 120)%Q) by (unfold Qle; simpl; lia).
  split; [exact H|].
  exact (proj1 (@getClusterSize_monotone 9 120 H)).
Defined.

(* ------------------------------------------------------------------ *)
(** * Properties of the popup *)

(** The popup shows a conversion score row for every score that is not
    [undefined].  The row is coloured with the score's colour and that
    colour followed by ["1F"] as background, except for the score 0, whose
    row is shown without colours. *)
Theorem popupScoreRow_colours (q : Q) :
  popupScoreRow None = None
  /\ exists row,
       popupScoreRow (Some (Num q)) = Some row
       /\ ScoreRow.score row = Num q
       /\ ((q == 0)%Q ->
           ScoreRow.color row = None /\ ScoreRow.backgroundColor row = None)
       /\ (~ (q == 0)%Q ->
           ScoreRow.color row = Some (getConversionScoreColor (Num q))
           /\ ScoreRow.backgroundColor row
              = Some (getConversionScoreColor (Num q) ++ "1F")).
Proof.
  split; [reflexivity|].
  eexists. split; [reflexivity|]. split; [reflexivity|].
  cbn [ScoreRow.color ScoreRow.backgroundColor scoreColor scoreBgColor truthyNumber].
  destruct (Qeq_bool q 0) eqn:E; simpl.
  - apply Qeq_bool_iff in E. split; [auto | intro H; contradiction].
  - split; [|auto].
    intro H. apply Qeq_bool_iff in H. congruence.
Qed.

Lemma popupScoreRow_colours_witness :
  (0 == 0)%Q
  /\ exists row, popupScoreRow (Some (Num 0)) = Some row /\ ScoreRow.color row = None.
Proof.
  split; [reflexivity|].
  destruct (proj2 (popupScoreRow_colours 0)) as (row & Hrow & _ & Hzero & _).
  exists row. split; [exact Hrow|]. exact (proj1 (Hzero (Qeq_refl 0))).
Defined.

(* ------------------------------------------------------------------ *)
(** * Properties of the map configuration *)

(** For a style name that is not a property inherited from
    [Object.prototype], the style URL and the fog colour are both strings
    and both belong to one and the same style: the named style when it is
    one of outdoors, satellite, light and dark, and outdoors otherwise. *)
Theorem map_config_consistent (inherited : string -> bool) (mapStyle : string) :
  inherited mapStyle = false ->
  exists style url fog,
    In (style, url, fog)
       [ ("outdoors", MAP_STYLES.OUTDOORS, "#2d5016");
         ("satellite", MAP_STYLES.SATELLITE, "#87CEEB");
         ("light", MAP_STYLES.LIGHT, "#5d689c");
         ("dark", MAP_STYLES.DARK, "#242B4B") ]
    /\ getMapStyleUrl inherited mapStyle = StringValue url
    /\ getFogColor inherited mapStyle = StringValue fog
    /\ (style = mapStyle
        \/ (style = "outdoors"
            /\ ~ In mapStyle ["outdoors"; "satellite"; "light"; "dark"])).
Proof.
  intro Hown. unfold getMapStyleUrl, getFogColor, getProperty, FOG_COLORS.
  unfold MAP_STYLE_TYPES.OUTDOORS, MAP_STYLE_TYPES.SATELLITE,
    MAP_STYLE_TYPES.LIGHT, MAP_STYLE_TYPES.DARK.
  cbn [ownProperty].
  destruct (String.eqb "outdoors" mapStyle) eqn:E1.
  { apply String.eqb_eq in E1. subst mapStyle.
    exists "outdoors", MAP_STYLES.OUTDOORS, "#2d5016". simpl. repeat split; auto. }
  destruct (String.eqb "satellite" mapStyle) eqn:E2.
  { apply String.eqb_eq in E2. subst mapStyle.
    exists "satellite", MAP_STYLES.SATELLITE, "#87CEEB". simpl. repeat split; auto. }
  destruct (String.eqb "light" mapStyle) eqn:E3.
  { apply String.eqb_eq in E3. subst mapStyle.
    exists "light", MAP_STYLES.LIGHT, "#5d689c". simpl. repeat split; auto. }
  destruct (String.eqb "dark" mapStyle) eqn:E4.
  { apply String.eqb_eq in E4. subst mapStyle.
    exists "dark", MAP_STYLES.DARK, "#242B4B". simpl. repeat split; auto. }
  rewrite Hown. simpl.
  apply String.eqb_neq in E1, E2, E3, E4.
  exists "outdoors", MAP_STYLES.OUTDOORS, "#2d5016".
  repeat split; auto.
  right. split; [reflexivity|]. simpl. intuition.
Qed.

Lemma map_config_consistent_witness :
  exists style url fog,
    In (style, url, fog)
       [ ("outdoors", MAP_STYLES.OUTDOORS, "#2d5016");
         ("satellite", MAP_STYLES.SATELLITE, "#87CEEB");
         ("light", MAP_STYLES.LIGHT, "#5d689c");
         ("dark", MAP_STYLES.DARK, "#242B4B") ]
    /\ getMapStyleUrl (String.eqb "constructor") "terrain" = StringValue url
    /\ getFogColor (String.eqb "constructor") "terrain" = StringValue fog
    /\ (style = "terrain"
        \/ (style = "outdoors"
            /\ ~ In "terrain" ["outdoors"; "satellite"; "light"; "dark"])).
Proof.
  apply (@map_config_consistent (String.eqb "constructor") "terrain").
  reflexivity.
Defined.

(* ------------------------------------------------------------------ *)
(** * Properties of the displayed name *)

Lemma trimStart_length (s : string) :
  (String.length (trimStart s) <= String.length s)%nat.
Proof.
  induction s as [|c s IH]; simpl; [lia|].
  destruct (isWhiteSpace c); simpl; lia.
Qed.

(** A non-empty string that [trimStart] leaves alone starts with a
    character that is not white space. *)
Lemma trimStart_fixed_head (c : ascii) (s : string) :
  trimStart (String c s) = String c s -> isWhiteSpace c = false.
Proof.
  simpl. destruct (isWhiteSpace c); [|reflexivity].
  intro H. pose proof (trimStart_length s) as Hlen.
  rewrite H in Hlen. simpl in Hlen. lia.
Qed.

Lemma trimStart_app (a b : string) :
  a <> "" -> trimStart a = a -> trimStart (a ++ b) = a ++ b.
Proof.
  destruct a as [|c a]; [congruence|].
  intros _ H. apply trimStart_fixed_head in H. simpl. rewrite H. reflexivity.
Qed.

Lemma trimEnd_app_kept (a b : string) :
  trimEnd b <> "" -> trimEnd (a ++ b) = a ++ trimEnd b.
Proof.
  intro Hb. induction a as [|c a IH]; simpl; [reflexivity|].
  rewrite IH. destruct (a ++ trimEnd b) eqn:E; [|reflexivity].
  destruct a; simpl in E; [contradiction | discriminate].
Qed.

Lemma trimEnd_app_space (a : string) : trimEnd (a ++ " ") = trimEnd a.
Proof.
  induction a as [|c a IH]; simpl; [reflexivity|].
  rewrite IH. reflexivity.
Qed.

Lemma trimEnd_unfold (c : ascii) (rest : string) :
  trimEnd (String c rest)
  = match trimEnd rest with
    | EmptyString => if isWhiteSpace c then EmptyString else String c EmptyString
    | kept => String c kept
    end.
Proof. reflexivity. Qed.

Lemma trimEnd_idempotent (s : string) : trimEnd (trimEnd s) = trimEnd s.
Proof.
  induction s as [|c s IH]; [reflexivity|].
  rewrite (trimEnd_unfold c s).
  destruct (trimEnd s) as [|d kept] eqn:E.
  - destruct (isWhiteSpace c) eqn:Ec; [reflexivity|].
    simpl. rewrite Ec. reflexivity.
  - rewrite trimEnd_unfold, IH. reflexivity.
Qed.

Lemma trimEnd_head (c : ascii) (s : string) :
  isWhiteSpace c = false -> exists kept, trimEnd (String c s) = String c kept.
Proof.
  intro Hc. simpl. destruct (trimEnd s); [rewrite Hc|]; eauto.
Qed.

Lemma trimStart_trim (s : string) : trimStart (trim s) = trim s.
Proof.
  unfold trim.
  assert (Hhead : trimStart s = "" \/
                  exists c rest, trimStart s = String c rest /\ isWhiteSpace c = false).
  { induction s as [|c s IH]; simpl; [left; reflexivity|].
    destruct (isWhiteSpace c) eqn:Ec; [exact IH|].
    right. exists c, s. auto. }
  destruct Hhead as [-> | (c & rest & -> & Hc)]; [reflexivity|].
  destruct (@trimEnd_head c rest Hc) as [kept ->].
  simpl. rewrite Hc. reflexivity.
Qed.

Lemma stringOr_truthy (s fallback : string) :
  fallback <> "" -> stringOr (Some s) fallback <> "".
Proof.
  intro Hf. simpl. destruct s; simpl; [exact Hf | discriminate].
Qed.

(** The name shown for a record has no white space at either end.  It is
    the first and the last name separated by one space when both are there
    (and themselves free of surrounding white space), the one name alone,
    without a stray space, when the other is missing, and empty when both
    are missing; the marker's label and the popup's heading then read
    "Visitor" and "Unknown", and are never empty. *)
Theorem fullName_cases (v : Visitor.t) (first last : string) :
  first <> "" -> trimStart first = first -> trimEnd first = first ->
  last <> "" -> trimStart last = last -> trimEnd last = last ->
  (trimStart (fullName v) = fullName v /\ trimEnd (fullName v) = fullName v)
  /\ markerLabel v <> "" /\ popupHeading v <> ""
  /\ (Visitor.firstName v = Some first -> Visitor.lastName v = Some last ->
      fullName v = first ++ " " ++ last)
  /\ (Visitor.firstName v = Some first -> Visitor.lastName v = None ->
      fullName v = first /\ markerLabel v = first /\ popupHeading v = first)
  /\ (Visitor.firstName v = None -> Visitor.lastName v = Some last ->
      fullName v = last /\ markerLabel v = last /\ popupHeading v = last)
  /\ (Visitor.firstName v = None -> Visitor.lastName v = None ->
      fullName v = "" /\ markerLabel v = "Visitor" /\ popupHeading v = "Unknown").
Proof.
  intros Hf HfS HfE Hl HlS HlE.
  assert (Hor : forall s, s <> "" -> stringOr (Some s) "" = s)
    by (intros [|c s] H; [congruence | reflexivity]).
  assert (Hlabel : forall s fallback, s <> "" -> stringOr (Some s) fallback = s)
    by (intros [|c s] fallback H; [congruence | reflexivity]).
  split; [|split; [|split; [|split; [|split; [|split]]]]].
  - split; [apply trimStart_trim | apply trimEnd_idempotent].
  - apply stringOr_truthy. discriminate.
  - apply stringOr_truthy. discriminate.
  - intros H1 H2. unfold fullName, trim. rewrite H1, H2, !Hor by assumption.
    rewrite trimStart_app by assumption.
    rewrite trimEnd_app_kept by (rewrite trimEnd_app_kept; rewrite HlE;
                                  [discriminate | assumption]).
    rewrite trimEnd_app_kept by (rewrite HlE; assumption).
    rewrite HlE. reflexivity.
  - intros H1 H2.
    assert (Hname : fullName v = first).
    { unfold fullName, trim. rewrite H1, H2, Hor by assumption. simpl stringOr.
      rewrite trimStart_app by assumption.
      rewrite trimEnd_app_space. exact HfE. }
    unfold markerLabel, popupHeading. rewrite Hname, !Hlabel by assumption. auto.
  - intros H1 H2.
    assert (Hname : fullName v = last).
    { unfold fullName, trim. rewrite H1, H2, Hor by assumption. simpl.
      rewrite HlS. exact HlE. }
    unfold markerLabel, popupHeading. rewrite Hname, !Hlabel by assumption. auto.
  - intros H1 H2.
    assert (Hname : fullName v = "")
      by (unfold fullName; rewrite H1, H2; reflexivity).
    unfold markerLabel, popupHeading. rewrite Hname. auto.
Qed.

Lemma fullName_cases_witness :
  fullName marie = "Marie" /\ markerLabel marie = "Marie" /\ popupHeading marie = "Marie".
Proof.
  refine (proj1 (proj2 (proj2 (proj2 (proj2
            (@fullName_cases marie "Marie" "Doe" _ _ _ _ _ _))))) _ _);
    try reflexivity; discriminate.
Defined.

(* ------------------------------------------------------------------ *)
(** * The search box and the country filter *)

Lemma prefix_refl (s : string) : String.prefix s s = true.
Proof.
  induction s as [|c s IH]; simpl; [reflexivity|].
  destruct (ascii_dec c c); [exact IH | congruence].
Qed.

Lemma toLowerCase_empty (s : string) : toLowerCase s = "" -> s = "".
Proof. destruct s; [reflexivity | discriminate]. Qed.

(** Whatever the country filter selects, the same text typed into the
    search box selects too: a record that passes the country filter for a
    non-empty value also matches that value as search text. *)
Theorem country_filter_implies_search (visitors : list Visitor.t) (value : string)
  (v : Visitor.t) :
  value <> "" ->
  In v (filterVisitors visitors "" (handleFilterChange Key_country value noFilters)) ->
  In v (filterVisitors visitors value noFilters).
Proof.
  intro Hvalue. unfold filterVisitors. rewrite !filter_In, !passes_split. simpl.
  intros (Hin & _ & Hcountry & _). split; [exact Hin|].
  repeat split.
  unfold matchesCountryFilter in Hcountry. unfold matchesSearchQuery.
  destruct (truthyString value); simpl in *; [|reflexivity].
  destruct (Visitor.country v) as [c|]; simpl in Hcountry; [|discriminate].
  apply String.eqb_eq in Hcountry.
  rewrite !orb_true_iff. right. simpl. rewrite Hcountry.
  apply includes_prefix, prefix_refl.
Qed.

Lemma country_filter_implies_search_witness :
  "france" <> ""
  /\ In marie (filterVisitors [john; marie] "france" noFilters).
Proof.
  assert (H : "france" <> "") by discriminate.
  split; [exact H|].
  apply (@country_filter_implies_search [john; marie] "france" marie H).
  vm_compute. left; reflexivity.
Defined.

